(** * gestaocaribe: receipts, operation status and portfolio figures

    A shallow embedding of the financial core of the application:
    [App.tsx] (data loading, installment expansion, receipt
    reconciliation and reversal, cascading deletes, reminders), the
    [Dashboard] component (portfolio figures and lists), the amount
    parser of [lib/utils] and the status change and net value preview
    of [pages/Operations].

    Conventions of the embedding.
    - A JavaScript [number] is an IEEE 754 double ([Float64.JsNumber]).
      The records hold an amount as the rational ([Q]) it is written as
      in the JSON of the store or in the form; [Float64.number] is the
      double the program then works with (the amount itself when it is
      a double).  What the program decides on amounts (whether an
      operation is fully paid, how a plan is split into installments,
      what the currency input parses to) is computed in doubles,
      operation by operation in the order of the source.  The figures
      of the dashboard and the net value of a single title are kept as
      the exact expressions the source evaluates.  Ids and counts are
      integers ([Z]).
    - A date-only ISO string ['YYYY-MM-DD'] is represented by the number
      of its calendar day ([IsoDate]); a [Date] object by its local time
      in milliseconds.
    - An optional field ([newDueDate?], [installments?]) is an [option];
      the source tests such fields for truthiness, and the empty string
      and [undefined] are both [None].
    - The Supabase client is a record of reply functions; every request
      sent is appended to the [calls] of the state, so that "no request
      is issued" is a statement about that list. *)

From Stdlib Require Import ZArith QArith Qround Qabs Qminmax Qpower Lqa Lia.
From Stdlib Require Import List Bool Ascii String Permutation Sorted.
From Stdlib Require Import DecimalString.
Import ListNotations.

Local Open Scope Q_scope.

(** ** Data model ([types.ts]) *)

Inductive OperationStatus := aberto | pago | atrasado.

Inductive OperationType := duplicata | cheque | parcelamento.

Definition OperationStatus_eqb (a b : OperationStatus) : bool :=
  match a, b with
  | aberto, aberto | pago, pago | atrasado, atrasado => true
  | _, _ => false
  end.

Definition OperationType_eqb (a b : OperationType) : bool :=
  match a, b with
  | duplicata, duplicata | cheque, cheque | parcelamento, parcelamento => true
  | _, _ => false
  end.

(** Day number of a date-only ISO string. *)
Definition IsoDate := Z.

(** Local time of a [Date] object, in milliseconds. *)
Definition Date := Z.

Bind Scope Z_scope with IsoDate Date.

Module Operation.
Record t := mk {
  id : Z;
  clientId : option Z;
  clientName : string;
  type : OperationType;
  titleNumber : string;
  nominalValue : Q;
  netValue : Q;
  issueDate : IsoDate;
  dueDate : IsoDate;
  taxa : Q;
  status : OperationStatus;
  observacoes : string
}.

(** [{ ...op, status }] *)
Definition with_status (op : t) (s : OperationStatus) : t :=
  mk (id op) (clientId op) (clientName op) (type op) (titleNumber op)
     (nominalValue op) (netValue op) (issueDate op) (dueDate op) (taxa op)
     s (observacoes op).

(** [{ ...op, dueDate, status }] *)
Definition with_dueDate_status (op : t) (d : IsoDate) (s : OperationStatus) : t :=
  mk (id op) (clientId op) (clientName op) (type op) (titleNumber op)
     (nominalValue op) (netValue op) (issueDate op) d (taxa op)
     s (observacoes op).
End Operation.

Module Recebimento.
Record t := mk {
  id : Z;
  operationId : Z;
  data_recebimento : IsoDate;
  valor_total_recebido : Q;
  valor_principal_pago : Q;
  valor_juros_pago : Q;
  forma_pagamento : string;
  observacoes : string
}.
End Recebimento.

Module NewRecebimento.
Record t := mk {
  operationId : Z;
  data_recebimento : IsoDate;
  valor_total_recebido : Q;
  valor_principal_pago : Q;
  valor_juros_pago : Q;
  forma_pagamento : string;
  observacoes : string;
  newDueDate : option IsoDate
}.
End NewRecebimento.

Module NewOperation.
Record t := mk {
  clientId : Z;
  type : OperationType;
  titleNumber : string;
  nominalValue : Q;
  issueDate : IsoDate;
  dueDate : IsoDate;
  taxa : Q;
  observacoes : string;
  installments : option Z
}.
End NewOperation.

Module Reminder.
Record t := mk {
  id : Z;
  operationId : Z;
  clientName : string;
  dueDate : IsoDate;
  nominalValue : Q
}.
End Reminder.

(** ** Array helpers *)

(** [xs.reduce((sum, x) => sum + f(x), 0)] *)
Definition reduce_sum {A : Type} (f : A -> Q) (xs : list A) : Q :=
  fold_left (fun sum x => sum + f x) xs 0.

(** [xs.includes(x)] on numbers. *)
Definition includes (xs : list Z) (x : Z) : bool :=
  existsb (Z.eqb x) xs.

Section Sort.
Context {A : Type} (compareFn : A -> A -> Z).

Fixpoint sort_insert (x : A) (l : list A) : list A :=
  match l with
  | [] => [x]
  | y :: l' =>
      if (compareFn x y <=? 0)%Z then x :: l else y :: sort_insert x l'
  end.

(** [xs.sort(compareFn)]: the sort of the language is stable; an
    element is placed before the elements it followed only when the
    comparison is strictly positive. *)
Definition sort (l : list A) : list A :=
  fold_right sort_insert [] l.
End Sort.

(** ** date-fns *)

Module DateFns.
Definition msPerDay : Z := 86400000.

(** [parseISO] of a date-only string: local midnight of that day. *)
Definition parseISO (d : IsoDate) : Date := (d * msPerDay)%Z.

(** [startOfDay]; also [date.setHours(0, 0, 0, 0)]. *)
Definition startOfDay (t : Date) : Date := (t / msPerDay * msPerDay)%Z.

(** Calendar day of a [Date]. *)
Definition dayOf (t : Date) : IsoDate := (t / msPerDay)%Z.

(** [isPast(date)]: [date < Date.now()]. *)
Definition isPast (now t : Date) : bool := (t <? now)%Z.

(** [isToday(date)]: same calendar day as [Date.now()]. *)
Definition isToday (now t : Date) : bool :=
  (startOfDay t =? startOfDay now)%Z.

(** [differenceInDays(left, right)]: number of full days, truncated
    towards zero. *)
Definition differenceInDays (l r : Date) : Z := Z.quot (l - r) msPerDay.

(** [date.getTime()] *)
Definition getTime (t : Date) : Z := t.
End DateFns.

(** ** JavaScript numbers

    The finite doubles are the rationals [m * 2 ^ e] with
    [|m| < 2 ^ 53] and [-1074 <= e], below [2 ^ 1024] in magnitude.  An
    arithmetic operation is the exact operation followed by rounding to
    the nearest double, to the one with an even [m] when two are as
    near.  Zero carries no sign here: the program never divides by
    zero (its divisors are a count of installments above 1 and 100),
    and in every other operation it uses [-0] behaves as [0]. *)

Module Float64.
Inductive JsNumber :=
| Finite (q : Q)
| Infinite (negative : bool)
| NaN.

Definition pow2 (e : Z) : Q := Qpower 2 e.

Definition Qltb (a b : Q) : bool := negb (Qle_bool b a).

(** The exponent [k] with [2 ^ k <= x < 2 ^ (k + 1)], for [0 < x]. *)
Definition ilog2 (x : Q) : Z :=
  let k := (Z.log2 (Qnum x) - Z.log2 (Z.pos (Qden x)))%Z in
  if Qle_bool (pow2 k) x then k else (k - 1)%Z.

(** The nearest integer, the even one of two that are as near. *)
Definition roundEven (x : Q) : Z :=
  let f := Qfloor x in
  let r := x - inject_Z f in
  if Qltb r (1 # 2) then f
  else if Qltb (1 # 2) r then (f + 1)%Z
  else if Z.even f then f else (f + 1)%Z.

(** The nearest multiple of the spacing of the doubles around [x]:
    53 significant bits, and [2 ^ -1074] for the subnormal ones. *)
Definition roundFinite (x : Q) : Q :=
  if Qeq_bool x 0 then 0
  else
    let e := Z.max (ilog2 (Qabs x) - 52) (-1074) in
    Qred (inject_Z (roundEven (x / pow2 e)) * pow2 e).

(** Rounding to a double; what rounds to [2 ^ 1024] or beyond
    overflows. *)
Definition round (x : Q) : JsNumber :=
  let y := roundFinite x in
  if Qle_bool (pow2 1024) (Qabs y) then Infinite (Qltb x 0) else Finite y.

(** The double a decimal numeral denotes. *)
Definition number (q : Q) : JsNumber := round q.

Definition neg (a : JsNumber) : JsNumber :=
  match a with
  | Finite x => Finite (- x)
  | Infinite s => Infinite (negb s)
  | NaN => NaN
  end.

(** [a + b] *)
Definition add (a b : JsNumber) : JsNumber :=
  match a, b with
  | NaN, _ | _, NaN => NaN
  | Finite x, Finite y => round (x + y)
  | Infinite s, Finite _ | Finite _, Infinite s => Infinite s
  | Infinite s, Infinite t => if Bool.eqb s t then Infinite s else NaN
  end.

(** [a - b] *)
Definition sub (a b : JsNumber) : JsNumber := add a (neg b).

(** [a * b] *)
Definition mul (a b : JsNumber) : JsNumber :=
  match a, b with
  | NaN, _ | _, NaN => NaN
  | Finite x, Finite y => round (x * y)
  | Infinite s, Finite y | Finite y, Infinite s =>
      if Qeq_bool y 0 then NaN else Infinite (xorb s (Qltb y 0))
  | Infinite s, Infinite t => Infinite (xorb s t)
  end.

(** [a / b] *)
Definition div (a b : JsNumber) : JsNumber :=
  match a, b with
  | NaN, _ | _, NaN => NaN
  | Finite x, Finite y =>
      if Qeq_bool y 0
      then (if Qeq_bool x 0 then NaN else Infinite (Qltb x 0))
      else round (x / y)
  | Finite _, Infinite _ => Finite 0
  | Infinite s, Finite y => Infinite (xorb s (Qltb y 0))
  | Infinite _, Infinite _ => NaN
  end.

(** [a >= b] *)
Definition ge (a b : JsNumber) : bool :=
  match a, b with
  | NaN, _ | _, NaN => false
  | Finite x, Finite y => Qle_bool y x
  | Infinite false, _ => true
  | _, Infinite true => true
  | _, _ => false
  end.

(** [a < b] *)
Definition lt (a b : JsNumber) : bool :=
  match a, b with
  | NaN, _ | _, NaN => false
  | Finite x, Finite y => Qltb x y
  | Infinite true, Infinite true => false
  | Infinite true, _ => true
  | Infinite false, _ => false
  | Finite _, Infinite s => negb s
  end.

(** The amount a record holds for a number.  The amounts of the
    records are rationals: a number that is not finite (JSON writes it
    [null]), which only an overflow beyond [2 ^ 1024] produces from
    them, has none, and 0 stands for it. *)
Definition amount (x : JsNumber) : Q :=
  match x with
  | Finite q => q
  | _ => 0
  end.

Arguments roundFinite : simpl never.
Arguments round : simpl never.
Arguments number : simpl never.
Arguments add : simpl never.
Arguments sub : simpl never.
Arguments mul : simpl never.
Arguments div : simpl never.
Arguments ge : simpl never.
Arguments lt : simpl never.
End Float64.

(** ** Dashboard: portfolio figures *)

Module Dashboard.
Import Operation.

Record Stats := mkStats {
  activeCapital : Q;
  totalReceivables : Q;
  interestToReceive : Q;
  delinquencyValue : Q
}.

Section PerOperation.
Variable receipts : list Recebimento.t.
Variable op : Operation.t.

Definition opReceipts : list Recebimento.t :=
  filter (fun r => (Recebimento.operationId r =? id op)%Z) receipts.

Definition paidPrincipal : Q :=
  reduce_sum Recebimento.valor_principal_pago opReceipts.

Definition paidInterest : Q :=
  reduce_sum Recebimento.valor_juros_pago opReceipts.

Definition originalInterest : Q := nominalValue op - netValue op.

Definition remainingPrincipal : Q := Qmax 0 (netValue op - paidPrincipal).

Definition remainingInterest : Q := Qmax 0 (originalInterest - paidInterest).

Definition currentDebt : Q := remainingPrincipal + remainingInterest.
End PerOperation.

(** Body of [activeOperations.forEach]: the four accumulators are the
    fields of [Stats]. *)
Definition accumulate (receipts : list Recebimento.t)
           (acc : Stats) (op : Operation.t) : Stats :=
  let delinquencyValue' :=
    if OperationStatus_eqb (status op) atrasado
    then delinquencyValue acc + currentDebt receipts op
    else delinquencyValue acc in
  mkStats (activeCapital acc + remainingPrincipal receipts op)
          (totalReceivables acc + currentDebt receipts op)
          (interestToReceive acc + remainingInterest receipts op)
          delinquencyValue'.

Definition isActive (op : Operation.t) : bool :=
  OperationStatus_eqb (status op) aberto
  || OperationStatus_eqb (status op) atrasado.

Definition activeOperations (operations : list Operation.t) : list Operation.t :=
  filter isActive operations.

Definition stats (operations : list Operation.t)
           (receipts : list Recebimento.t) : Stats :=
  fold_left (accumulate receipts) (activeOperations operations)
            (mkStats 0 0 0 0).
End Dashboard.

(** ** The Supabase client and the application state *)

Module Client.
Record t := mk {
  id : Z;
  nome : string;
  cpf_cnpj : string;
  email : string;
  telefone : string;
  endereco : string;
  limite_credito : Q;
  taxa_juros_mensal : Q
}.
End Client.

(** A row of the [operations] table; [clients] is the joined
    [clients (nome)] of the query of [fetchData], absent in the rows an
    insert returns. *)
Module OperationRow.
Record t := mk {
  id : Z;
  client_id : option Z;
  clients : option string;
  type : OperationType;
  title_number : string;
  nominal_value : Q;
  net_value : Q;
  issue_date : IsoDate;
  due_date : IsoDate;
  taxa : Q;
  status : OperationStatus;
  observacoes : string
}.
End OperationRow.

(** The object [handleAddOperation] inserts. *)
Module OperationPayload.
Record t := mk {
  type : OperationType;
  title_number : string;
  nominal_value : Q;
  net_value : Q;
  issue_date : IsoDate;
  due_date : IsoDate;
  taxa : Q;
  status : OperationStatus;
  client_id : option Z;
  observacoes : string
}.
End OperationPayload.

(** The object [handleAddReceipt] inserts. *)
Module ReceiptPayload.
Record t := mk {
  operation_id : Z;
  data_recebimento : IsoDate;
  valor_total_recebido : Q;
  valor_principal_pago : Q;
  valor_juros_pago : Q;
  forma_pagamento : string;
  observacoes : string
}.
End ReceiptPayload.

Module Supabase.
(** The [{ data, error }] a request resolves to. *)
Inductive Result (A : Type) :=
| Ok (data : A)
| Err (message : string).
Arguments Ok {A} data.
Arguments Err {A} message.

(** Argument of [.update({...})] on [operations]. *)
Record OperationPatch := mkPatch {
  patch_due_date : option IsoDate;
  patch_status : option OperationStatus
}.

Inductive Call :=
| UsersSelect
| ClientsSelect
| OperationsSelect
| ReceiptsSelect
| OperationsInsert (rows : list OperationPayload.t)
| OperationsUpdate (patch : OperationPatch) (id : Z)
| ReceiptsInsert (row : ReceiptPayload.t)
| ReceiptsDelete (id : Z).

(** What the store answers to each request.  The list of users is not
    part of the modelled state; only the outcome of its query is. *)
Record t := mk {
  users_select : Result unit;
  clients_select : Result (list Client.t);
  operations_select : Result (list OperationRow.t);
  receipts_select : Result (list Recebimento.t);
  operations_insert : list OperationPayload.t -> Result (list OperationRow.t);
  operations_insert_single : OperationPayload.t -> Result OperationRow.t;
  operations_update : OperationPatch -> Z -> Result unit;
  receipts_insert : ReceiptPayload.t -> Result Recebimento.t;
  receipts_delete : Z -> Result unit
}.
End Supabase.

Module App.
Import Supabase.

Inductive NotificationType := success | error | info.

(** The [useState] cells of [App] the handlers below touch, the
    requests sent so far and the notifications shown so far. *)
Record State := mkState {
  clients : list Client.t;
  operations : list Operation.t;
  receipts : list Recebimento.t;
  isLoading : bool;
  calls : list Call;
  notifications : list (string * NotificationType)
}.

(** *** Handlers as state transformers that may throw *)

Inductive Outcome (A : Type) :=
| Returned (a : A)
| Thrown (message : string).
Arguments Returned {A} a.
Arguments Thrown {A} message.

Definition Async (A : Type) : Type := State -> Outcome A * State.

Definition ret {A} (a : A) : Async A := fun s => (Returned a, s).

Definition bind {A B} (m : Async A) (k : A -> Async B) : Async B :=
  fun s =>
    match m s with
    | (Returned a, s') => k a s'
    | (Thrown e, s') => (Thrown e, s')
    end.

Definition throw {A} (e : string) : Async A := fun s => (Thrown e, s).

(** [try { m } catch (error) { handler(error.message) }]: what [m] did
    to the state before it threw is kept. *)
Definition tryCatch {A} (m : Async A) (handler : string -> Async A) : Async A :=
  fun s =>
    match m s with
    | (Returned a, s') => (Returned a, s')
    | (Thrown e, s') => handler e s'
    end.

(** [try { m } finally { f }] where [f] does not throw. *)
Definition tryFinally {A} (m : Async A) (f : State -> State) : Async A :=
  fun s => let (r, s') := m s in (r, f s').

Declare Scope async_scope.
Delimit Scope async_scope with async.
Notation "x <- m ;; k" := (bind m (fun x => k))
  (at level 61, m at next level, right associativity) : async_scope.
Notation "m ;;; k" := (bind m (fun _ => k))
  (at level 61, right associativity) : async_scope.
Local Open Scope async_scope.

(** [await supabase.from(...)...]: the request is recorded and its
    reply handed back. *)
Definition request {A} (c : Call) (reply : Result A) : Async (Result A) :=
  fun s =>
    (Returned reply,
     mkState (clients s) (operations s) (receipts s) (isLoading s)
             (calls s ++ [c]) (notifications s)).

(** [if (error) throw error;] *)
Definition orThrow {A} (r : Result A) : Async A :=
  match r with
  | Ok data => ret data
  | Err message => throw message
  end.

Definition setClients (f : list Client.t -> list Client.t) : Async unit :=
  fun s =>
    (Returned tt,
     mkState (f (clients s)) (operations s) (receipts s) (isLoading s)
             (calls s) (notifications s)).

Definition setOperations (f : list Operation.t -> list Operation.t) : Async unit :=
  fun s =>
    (Returned tt,
     mkState (clients s) (f (operations s)) (receipts s) (isLoading s)
             (calls s) (notifications s)).

Definition setReceipts (f : list Recebimento.t -> list Recebimento.t) : Async unit :=
  fun s =>
    (Returned tt,
     mkState (clients s) (operations s) (f (receipts s)) (isLoading s)
             (calls s) (notifications s)).

Definition withIsLoading (b : bool) (s : State) : State :=
  mkState (clients s) (operations s) (receipts s) b (calls s) (notifications s).

Definition setIsLoading (b : bool) : Async unit :=
  fun s => (Returned tt, withIsLoading b s).

Definition addNotification (message : string) (type : NotificationType) : Async unit :=
  fun s =>
    (Returned tt,
     mkState (clients s) (operations s) (receipts s) (isLoading s)
             (calls s) (notifications s ++ [(message, type)])).

(** [a < b] on exact amounts. *)
Definition Qlt_bool (a b : Q) : bool := negb (Qle_bool b a).

(** *** fetchData *)

(** [isPast(dueDate) && !isToday(dueDate)] *)
Definition isOverdue (now : Date) (due : IsoDate) : bool :=
  let dueDate := DateFns.parseISO due in
  DateFns.isPast now dueDate && negb (DateFns.isToday now dueDate).

Definition clientNameOf (joined : option string) : string :=
  match joined with
  | Some nome => if String.eqb nome EmptyString then "Cliente Desconhecido"%string else nome
  | None => "Cliente Desconhecido"%string
  end.

(** [d.client_id || 0] of the insert paths; [fetchData] keeps a null
    [client_id] as it is. *)
Definition clientIdOr0 (c : option Z) : option Z :=
  match c with Some n => Some n | None => Some 0%Z end.

Definition mapOperationRow (op : OperationRow.t) : Operation.t :=
  Operation.mk (OperationRow.id op)
               (OperationRow.client_id op)
               (clientNameOf (OperationRow.clients op))
               (OperationRow.type op) (OperationRow.title_number op)
               (OperationRow.nominal_value op) (OperationRow.net_value op)
               (OperationRow.issue_date op) (OperationRow.due_date op)
               (OperationRow.taxa op) (OperationRow.status op)
               (OperationRow.observacoes op).

(** [(a, b) => b.id - a.id] *)
Definition byIdDesc {A} (id : A -> Z) (a b : A) : Z := (id b - id a)%Z.

Definition mappedOps (opsData : list OperationRow.t) : list Operation.t :=
  sort (byIdDesc Operation.id) (map mapOperationRow opsData).

(** The callback of [mappedOps.map] in [fetchData]. *)
Definition autoUpdateOverdue (now : Date) (op : Operation.t) : Operation.t :=
  if OperationStatus_eqb (Operation.status op) aberto then
    if isOverdue now (Operation.dueDate op)
    then Operation.with_status op atrasado
    else op
  else op.

Definition updatedOps (now : Date) (opsData : list OperationRow.t) : list Operation.t :=
  map (autoUpdateOverdue now) (mappedOps opsData).

Definition mapReceiptRow (r : Recebimento.t) : Recebimento.t :=
  Recebimento.mk (Recebimento.id r) (Recebimento.operationId r)
                 (Recebimento.data_recebimento r)
                 (Recebimento.valor_total_recebido r)
                 (Recebimento.valor_principal_pago r)
                 (Recebimento.valor_juros_pago r)
                 (Recebimento.forma_pagamento r)
                 (Recebimento.observacoes r).

Definition fetchData (db : Supabase.t) (now : Date) : Async unit :=
  setIsLoading true ;;;
  tryFinally
    (tryCatch
       (usersReply <- request UsersSelect (users_select db) ;;
        orThrow usersReply ;;;
        clientsReply <- request ClientsSelect (clients_select db) ;;
        clientsData <- orThrow clientsReply ;;
        setClients (fun _ => sort (byIdDesc Client.id) clientsData) ;;;
        opsReply <- request OperationsSelect (operations_select db) ;;
        opsData <- orThrow opsReply ;;
        setOperations (fun _ => updatedOps now opsData) ;;;
        receiptsReply <- request ReceiptsSelect (receipts_select db) ;;
        receiptsData <- orThrow receiptsReply ;;
        setReceipts (fun _ => sort (byIdDesc Recebimento.id)
                                   (map mapReceiptRow receiptsData)))
       (fun _ => addNotification "Erro ao carregar dados do sistema." error))
    (withIsLoading false).

(** *** handleUpdateOperationStatus *)

Definition handleUpdateOperationStatus (db : Supabase.t)
           (operationId : Z) (status : OperationStatus) : Async unit :=
  tryCatch
    (let patch := mkPatch None (Some status) in
     reply <- request (OperationsUpdate patch operationId)
                      (operations_update db patch operationId) ;;
     orThrow reply ;;;
     setOperations
       (map (fun op => if (Operation.id op =? operationId)%Z
                       then Operation.with_status op status else op)))
    (fun message =>
       addNotification ("Erro ao atualizar status: " ++ message) error).

(** *** handleAddReceipt *)

Definition receiptPayload (receiptData : NewRecebimento.t) : ReceiptPayload.t :=
  ReceiptPayload.mk (NewRecebimento.operationId receiptData)
                    (NewRecebimento.data_recebimento receiptData)
                    (NewRecebimento.valor_total_recebido receiptData)
                    (NewRecebimento.valor_principal_pago receiptData)
                    (NewRecebimento.valor_juros_pago receiptData)
                    (NewRecebimento.forma_pagamento receiptData)
                    (NewRecebimento.observacoes receiptData).

(** [receipts] and [operations] are the values the callback closed
    over: the state when the handler is entered.  The total is the
    [reduce] from 0 over the receipts of the operation, in the order the
    state holds them, and then the new receipt, each addition in
    doubles. *)
Definition handleAddReceipt (db : Supabase.t)
           (receiptData : NewRecebimento.t) : Async unit :=
  fun s0 =>
    let receipts := receipts s0 in
    let operations := operations s0 in
    tryCatch
      (reply <- request (ReceiptsInsert (receiptPayload receiptData))
                        (receipts_insert db (receiptPayload receiptData)) ;;
       data <- orThrow reply ;;
       let newReceipt := mapReceiptRow data in
       setReceipts (fun prev => newReceipt :: prev) ;;;
       match find (fun op => (Operation.id op =? NewRecebimento.operationId receiptData)%Z)
                  operations with
       | Some operation =>
           match NewRecebimento.newDueDate receiptData with
           | Some newDueDate =>
               let patch := mkPatch (Some newDueDate) (Some aberto) in
               opUpdate <- request (OperationsUpdate patch (Operation.id operation))
                                   (operations_update db patch (Operation.id operation)) ;;
               orThrow opUpdate ;;;
               setOperations
                 (map (fun op =>
                         if (Operation.id op =? Operation.id operation)%Z
                         then Operation.with_dueDate_status op newDueDate aberto
                         else op))
           | None =>
               let totalPrincipalPaid :=
                 Float64.add
                   (fold_left
                      (fun sum r =>
                         Float64.add sum
                           (Float64.number (Recebimento.valor_principal_pago r)))
                      (filter (fun r => (Recebimento.operationId r
                                         =? NewRecebimento.operationId receiptData)%Z)
                              receipts)
                      (Float64.Finite 0))
                   (Float64.number (NewRecebimento.valor_principal_pago receiptData)) in
               if Float64.ge totalPrincipalPaid
                             (Float64.number (Operation.nominalValue operation))
               then handleUpdateOperationStatus db (Operation.id operation) pago
               else ret tt
           end
       | None => ret tt
       end)
      (fun message =>
         addNotification ("Erro ao registrar recebimento: " ++ message) error)
      s0.

(** *** handleDeleteReceipt *)

Definition handleDeleteReceipt (db : Supabase.t) (now : Date)
           (receiptId : Z) : Async unit :=
  fun s0 =>
    let receipts := receipts s0 in
    let operations := operations s0 in
    match find (fun r => (Recebimento.id r =? receiptId)%Z) receipts with
    | None => ret tt s0
    | Some receiptToDelete =>
        tryCatch
          (reply <- request (ReceiptsDelete receiptId) (receipts_delete db receiptId) ;;
           orThrow reply ;;;
           setReceipts (filter (fun r => negb (Recebimento.id r =? receiptId)%Z)) ;;;
           match find (fun op => (Operation.id op
                                  =? Recebimento.operationId receiptToDelete)%Z)
                      operations with
           | None => ret tt
           | Some operation =>
               if negb (OperationStatus_eqb (Operation.status operation) pago)
               then ret tt
               else
                 let remainingReceiptsForOp :=
                   filter (fun r => (Recebimento.operationId r
                                     =? Recebimento.operationId receiptToDelete)%Z
                                    && negb (Recebimento.id r =? receiptId)%Z)
                          receipts in
                 let totalPrincipalPaid :=
                   fold_left
                     (fun sum r =>
                        Float64.add sum
                          (Float64.number (Recebimento.valor_principal_pago r)))
                     remainingReceiptsForOp (Float64.Finite 0) in
                 if Float64.lt totalPrincipalPaid
                               (Float64.number (Operation.nominalValue operation))
                 then
                   let newStatus :=
                     if isOverdue now (Operation.dueDate operation)
                     then atrasado else aberto in
                   handleUpdateOperationStatus db (Operation.id operation) newStatus
                 else ret tt
           end)
          (fun message =>
             addNotification ("Erro ao excluir recebimento: " ++ message) error)
          s0
    end.

(** *** activeReminders *)

Definition REMINDER_WINDOW_DAYS : Z := 7.

Definition reminderOf (op : Operation.t) : Reminder.t :=
  Reminder.mk (Operation.id op) (Operation.id op) (Operation.clientName op)
              (Operation.dueDate op) (Operation.nominalValue op).

Definition activeReminders (now : Date) (dismissedReminderIds : list Z)
           (operations : list Operation.t) : list Reminder.t :=
  let today := DateFns.startOfDay now in
  sort (fun a b => (DateFns.getTime (DateFns.parseISO (Reminder.dueDate a))
                    - DateFns.getTime (DateFns.parseISO (Reminder.dueDate b)))%Z)
    (map reminderOf
       (filter
          (fun op =>
             if negb (OperationStatus_eqb (Operation.status op) aberto)
                || includes dismissedReminderIds (Operation.id op)
             then false
             else
               let dueDate := DateFns.parseISO (Operation.dueDate op) in
               let daysDiff := DateFns.differenceInDays dueDate today in
               (daysDiff >=? 0)%Z && (daysDiff <=? REMINDER_WINDOW_DAYS)%Z)
          operations)).

(** *** handleAddOperation *)

(** The digits of [x.toFixed(2)] for a finite double of value [x]
    below [1e21] in magnitude, as a signed number of hundredths: the
    one nearest to the value of the double, the larger in magnitude
    when two are as near. *)
Definition toFixed2 (x : Q) : Z :=
  if Qlt_bool x 0
  then (- Qfloor (- x * 100 + (1 # 2)))%Z
  else Qfloor (x * 100 + (1 # 2)).

(** [parseFloat(x.toFixed(2))]: the double nearest to the decimal that
    [toFixed] writes.  From [1e21] on, and for a number that is not
    finite, [toFixed] writes the number as [String] does, which
    [parseFloat] reads back as it was. *)
Definition round2 (x : Float64.JsNumber) : Float64.JsNumber :=
  match x with
  | Float64.Finite q =>
      if Qle_bool (inject_Z (10 ^ 21)) (Qabs q) then x
      else Float64.number (inject_Z (toFixed2 q) / 100)
  | _ => x
  end.

(** Decimal digits of a number in a template literal. *)
Definition string_of_Z (z : Z) : string :=
  NilZero.string_of_int (Z.to_int z).

Definition isTruthyClientId (c : Z) : bool := negb (c =? 0)%Z && (c >? 0)%Z.

Definition mapInsertedRow (client : option Client.t) (d : OperationRow.t) : Operation.t :=
  Operation.mk (OperationRow.id d)
               (clientIdOr0 (OperationRow.client_id d))
               (match client with
                | Some c => Client.nome c
                | None => "Cliente Desconhecido"%string
                end)
               (OperationRow.type d) (OperationRow.title_number d)
               (OperationRow.nominal_value d) (OperationRow.net_value d)
               (OperationRow.issue_date d) (OperationRow.due_date d)
               (OperationRow.taxa d) (OperationRow.status d)
               (OperationRow.observacoes d).

Section AddOperation.
(** [addMonths] of date-fns, and the day of
    [date.toISOString().split('T')[0]], which depends on the time
    zone of the browser: both are left open. *)
Variable addMonths : Date -> Z -> Date.
Variable toISODate : Date -> IsoDate.

Section Installments.
Variable opData : NewOperation.t.
Variable count : Z.

(** [opData.taxa / 100], as the single-title branch uses it. *)
Definition taxaDecimal : Q := NewOperation.taxa opData / 100.

Definition totalNominal : Float64.JsNumber :=
  Float64.number (NewOperation.nominalValue opData).

Definition nominalPerInstallment : Float64.JsNumber :=
  round2 (Float64.div totalNominal (Float64.number (inject_Z count))).

Definition totalCalculated : Float64.JsNumber :=
  Float64.mul nominalPerInstallment (Float64.number (inject_Z count)).

Definition diff : Float64.JsNumber :=
  round2 (Float64.sub totalNominal totalCalculated).

(** Body of the [for] loop at index [i]; [taxaDecimal] is here the
    double [opData.taxa / 100]. *)
Definition installmentPayload (i : Z) : OperationPayload.t :=
  let value :=
    if (i =? count - 1)%Z
    then Float64.add nominalPerInstallment diff
    else nominalPerInstallment in
  let interestAmount :=
    Float64.mul value
      (Float64.div (Float64.number (NewOperation.taxa opData)) (Float64.number 100)) in
  let netValue := Float64.add value interestAmount in
  let dueDate :=
    toISODate (addMonths (DateFns.parseISO (NewOperation.dueDate opData)) i) in
  OperationPayload.mk
    parcelamento
    (NewOperation.titleNumber opData ++ "-" ++ string_of_Z (i + 1)
       ++ "/" ++ string_of_Z count)
    (Float64.amount value) (Float64.amount netValue)
    (NewOperation.issueDate opData) dueDate
    (NewOperation.taxa opData) aberto
    (if isTruthyClientId (NewOperation.clientId opData)
     then Some (NewOperation.clientId opData) else None)
    (NewOperation.observacoes opData).

(** [for (let i = 0; i < count; i++) bulkOperations.push(payload)] *)
Definition bulkOperations : list OperationPayload.t :=
  map (fun i => installmentPayload (Z.of_nat i)) (seq 0 (Z.to_nat count)).
End Installments.

(** The payload of a single title.  Its net value is kept as the
    exact expression [nominalValue + nominalValue * taxaDecimal]. *)
Definition singlePayload (opData : NewOperation.t) : OperationPayload.t :=
  let interestAmount := NewOperation.nominalValue opData * taxaDecimal opData in
  let netValue := NewOperation.nominalValue opData + interestAmount in
  OperationPayload.mk
    (NewOperation.type opData) (NewOperation.titleNumber opData)
    (NewOperation.nominalValue opData) netValue
    (NewOperation.issueDate opData) (NewOperation.dueDate opData)
    (NewOperation.taxa opData) aberto
    (if isTruthyClientId (NewOperation.clientId opData)
     then Some (NewOperation.clientId opData) else None)
    (NewOperation.observacoes opData).

(** The count of the installment branch:
    [type === 'parcelamento' && installments && installments > 1]. *)
Definition installmentCount (opData : NewOperation.t) : option Z :=
  match NewOperation.installments opData with
  | Some n =>
      if OperationType_eqb (NewOperation.type opData) parcelamento
         && negb (n =? 0)%Z && (n >? 1)%Z
      then Some n else None
  | None => None
  end.

Definition handleAddOperation (db : Supabase.t)
           (opData : NewOperation.t) : Async unit :=
  fun s0 =>
    let client :=
      find (fun c => (Client.id c =? NewOperation.clientId opData)%Z) (clients s0) in
    match installmentCount opData with
    | Some count =>
        tryCatch
          (let rows := bulkOperations opData count in
           reply <- request (OperationsInsert rows) (operations_insert db rows) ;;
           data <- orThrow reply ;;
           let newOps := map (mapInsertedRow client) data in
           setOperations (fun prev => sort (byIdDesc Operation.id) newOps ++ prev) ;;;
           addNotification
             ("Parcelamento em " ++ string_of_Z count ++ "x registrado com sucesso!")
             success)
          (fun message =>
             addNotification ("Erro ao registrar parcelamento: " ++ message) error)
          s0
    | None =>
        tryCatch
          (let payload := singlePayload opData in
           reply <- request (OperationsInsert [payload])
                            (operations_insert_single db payload) ;;
           data <- orThrow reply ;;
           let newOperation := mapInsertedRow client data in
           setOperations (fun prev => newOperation :: prev) ;;;
           addNotification "Operação registrada com sucesso!" success)
          (fun message =>
             addNotification ("Erro ao registrar operação: " ++ message) error)
          s0
    end.
End AddOperation.
End App.

(** ** lib/utils *)

Module Utils.
(** [\d] *)
Definition isDigit (c : ascii) : bool :=
  (48 <=? nat_of_ascii c)%nat && (nat_of_ascii c <=? 57)%nat.

(** [value.replace(/\D/g, "")] *)
Fixpoint onlyDigits (value : string) : string :=
  match value with
  | EmptyString => EmptyString
  | String c rest =>
      if isDigit c then String c (onlyDigits rest) else onlyDigits rest
  end.

Definition digitValue (c : ascii) : Z := (Z.of_nat (nat_of_ascii c) - 48)%Z.

Fixpoint numberFrom (acc : Z) (digits : string) : Z :=
  match digits with
  | EmptyString => acc
  | String c rest => numberFrom (acc * 10 + digitValue c) rest
  end.

(** [Number(digits)] on a string of decimal digits: the double
    nearest to the integer the digits denote. *)
Definition Number (digits : string) : Float64.JsNumber :=
  Float64.number (inject_Z (numberFrom 0 digits)).

Definition parseCurrencyInput (value : string) : Q :=
  let onlyDigits := onlyDigits value in
  if String.eqb onlyDigits EmptyString then 0
  else Float64.amount (Float64.div (Number onlyDigits) (Float64.number 100)).
End Utils.

(** ** The other handlers of [App] *)

Module User.
Record t := mk {
  id : Z;
  nome : string;
  email : string;
  papel : string;
  password : string
}.
End User.

Module AppRest.
Import Supabase App.
Local Open Scope async_scope.

(** The delete requests on [clients], [operations] and [users], which
    [Supabase.Call] has no constructor for: they are answered and leave
    [calls] as it is. *)
Record Deletes := mkDeletes {
  clients_delete : Z -> Result unit;
  operations_delete : Z -> Result unit;
  users_delete : Z -> Result unit
}.

Definition answered {A} (reply : Result A) : Async (Result A) := ret reply.

Definition handleDeleteOperation (db : Deletes) (operationId : Z) : Async unit :=
  tryCatch
    (reply <- answered (operations_delete db operationId) ;;
     orThrow reply ;;;
     setReceipts (filter (fun r => negb (Recebimento.operationId r =? operationId)%Z)) ;;;
     setOperations (filter (fun op => negb (Operation.id op =? operationId)%Z)))
    (fun message =>
       addNotification ("Erro ao excluir operação: " ++ message) error).

(** [op.clientId === clientId] *)
Definition clientIdIs (clientId : Z) (op : Operation.t) : bool :=
  match Operation.clientId op with
  | Some c => (c =? clientId)%Z
  | None => false
  end.

(** [operations] is the value the callback closed over. *)
Definition handleDeleteClient (db : Deletes) (clientId : Z) : Async unit :=
  fun s0 =>
    let operations := operations s0 in
    tryCatch
      (reply <- answered (clients_delete db clientId) ;;
       orThrow reply ;;;
       let opsToDelete := map Operation.id (filter (clientIdIs clientId) operations) in
       setReceipts (filter (fun r => negb (includes opsToDelete (Recebimento.operationId r)))) ;;;
       setOperations (filter (fun op => negb (clientIdIs clientId op))) ;;;
       setClients (filter (fun c => negb (Client.id c =? clientId)%Z)))
      (fun message =>
         addNotification ("Erro ao excluir cliente: " ++ message) error)
      s0.

(** [setDismissedReminderIds(prev => [...prev, reminderId])] *)
Definition handleDismissReminder (reminderId : Z) (prev : list Z) : list Z :=
  prev ++ [reminderId].

(** The part of the state of [App] that [handleDeleteUser] works on. *)
Record UsersState := mkUsersState {
  users : list User.t;
  currentUser : option User.t;
  userNotifications : list (string * NotificationType)
}.

Definition handleDeleteUser (db : Deletes) (userId : Z) (s : UsersState)
  : bool * UsersState :=
  let isCurrent :=
    match currentUser s with
    | Some u => (User.id u =? userId)%Z
    | None => false
    end in
  if isCurrent then (false, s)
  else
    match users_delete db userId with
    | Ok _ =>
        (true,
         mkUsersState (filter (fun u => negb (User.id u =? userId)%Z) (users s))
                      (currentUser s) (userNotifications s))
    | Err message =>
        (false,
         mkUsersState (users s) (currentUser s)
                      (userNotifications s
                       ++ [(("Erro ao excluir usuário: " ++ message)%string, error)]))
    end.
End AppRest.

(** ** The other derivations of [Dashboard] *)

Module DashboardRest.
Import Operation Dashboard.



(** [n || 0] on a count that may be absent. *)
Definition orZero (n : option Z) : Z :=
  match n with
  | Some n => n
  | None => 0
  end.

(** [acc[op.status] = (acc[op.status] || 0) + 1] on an object whose
    keys are statuses: an absent key is [None]. *)
Definition countStatus (acc : OperationStatus -> option Z) (op : Operation.t)
  : OperationStatus -> option Z :=
  fun s =>
    if OperationStatus_eqb s (status op)
    then Some (orZero (acc (status op)) + 1)%Z
    else acc s.

Record Slice := mkSlice {
  label : string;
  value : Z;
  color : string
}.

Definition operationStatusData (operations : list Operation.t) : list Slice :=
  let counts := fold_left countStatus operations (fun _ => None) in
  [ mkSlice "Aberto" (orZero (counts aberto)) "#38bdf8";
    mkSlice "Pago" (orZero (counts pago)) "#34d399";
    mkSlice "Atrasado" (orZero (counts atrasado)) "#f87171" ].

(** ['today' | 'week' | 'overdue' | 'upcoming'] *)
Inductive Category := cat_today | cat_week | cat_overdue | cat_upcoming.

(** [{ ...op, dueDateObj }] and [{ ...op, category, daysDiff }] *)
Record WithDue := mkWithDue {
  due_op : Operation.t;
  dueDateObj : Date
}.

Record DueReminder := mkDueReminder {
  reminder_op : WithDue;
  category : Category;
  daysDiff : Z
}.

Section DueReminders.
(** [isThisWeek(date, { weekStartsOn: 1 })] of date-fns, given the
    clock: which day of the week a day number is is left open. *)
Variable isThisWeek : Date -> Date -> bool.

Definition categorize (now : Date) (op : WithDue) : DueReminder :=
  let today := DateFns.startOfDay now in
  let daysDiff := DateFns.differenceInDays (dueDateObj op) today in
  let category :=
    if DateFns.isPast now (dueDateObj op) && negb (DateFns.isToday now (dueDateObj op))
    then cat_overdue
    else if DateFns.isToday now (dueDateObj op) then cat_today
    else if isThisWeek now (dueDateObj op) && (daysDiff >? 0)%Z then cat_week
    else cat_upcoming in
  mkDueReminder op category daysDiff.

Definition dueReminders (now : Date) (operations : list Operation.t) : list DueReminder :=
  firstn 5
    (map (categorize now)
       (sort (fun a b => (DateFns.getTime (dueDateObj a)
                          - DateFns.getTime (dueDateObj b))%Z)
          (map (fun op => mkWithDue op (DateFns.parseISO (dueDate op)))
             (filter isActive operations)))).
End DueReminders.
End DashboardRest.

(** ** pages/Operations *)

Module OperationsPage.
Import Supabase App.

(** The effect on [formData.nominalValue] and [formData.taxa] that
    previews the net value; [taxa] is [parseFloat(formData.taxa) || 0]. *)
Definition netValueEffect (nominalValue : string) (taxa : Q) : Q :=
  let nominalValue := Utils.parseCurrencyInput nominalValue in
  if Qlt_bool 0 nominalValue && Qlt_bool 0 taxa then
    let taxaDecimal := taxa / 100 in
    let jurosCalculado := nominalValue * taxaDecimal in
    nominalValue + jurosCalculado
  else if Qlt_bool 0 nominalValue then nominalValue
  else 0.

(** [operationToUpdateStatus] of the page, beside the state of [App]. *)
Definition PageState : Type := option (Z * OperationStatus) * State.

Definition handleStatusChangeRequest (db : Supabase.t) (operationId : Z)
           (status : OperationStatus) (ps : PageState) : PageState :=
  let (operationToUpdateStatus, s) := ps in
  match find (fun op => (Operation.id op =? operationId)%Z) (operations s) with
  | None => ps
  | Some operation =>
      if OperationStatus_eqb (Operation.status operation) status then ps
      else if OperationStatus_eqb status pago
           then (Some (operationId, pago), s)
           else (operationToUpdateStatus,
                 snd (handleUpdateOperationStatus db operationId status s))
  end.

(** The update is started and the notification shown before the store
    answers. *)
Definition handleConfirmStatusUpdate (db : Supabase.t) (ps : PageState) : PageState :=
  let (operationToUpdateStatus, s) := ps in
  match operationToUpdateStatus with
  | Some (id, status) =>
      let s1 := snd (addNotification "Status da operação atualizado." info s) in
      (None, snd (handleUpdateOperationStatus db id status s1))
  | None => (None, s)
  end.
End OperationsPage.

(** * Specification side *)

(** Sum of a list of amounts, by recursion on the list. *)
Fixpoint Qsum (l : list Q) : Q :=
  match l with
  | [] => 0
  | x :: l' => x + Qsum l'
  end.

Module Float64Spec.
(** Rounding to a double moves an amount of magnitude up to [bound]
    ([2 ^ 37], above a hundred billion) by [slack] ([2 ^ -16]) at
    most. *)
Definition bound : Q := 137438953472.

Definition slack : Q := 1 # 65536.
End Float64Spec.

Module DashboardSpec.
Import Operation Dashboard.


Definition spec_paidInterest (receipts : list Recebimento.t) (op : Operation.t) : Q :=
  Qsum (map Recebimento.valor_juros_pago
            (filter (fun r => (Recebimento.operationId r =? id op)%Z) receipts)).




Definition delinquent (receipts : list Recebimento.t) (op : Operation.t) : Q :=
  if OperationStatus_eqb (status op) atrasado then currentDebt receipts op else 0.

(** An operation of nominal value 100 and net value 110, and a receipt
    of 150 of principal against it. *)
Definition op_100_110 (s : OperationStatus) : Operation.t :=
  Operation.mk 1%Z (Some 7%Z) "Cliente" duplicata "D-1" 100 110 0%Z 30%Z 10 s EmptyString.

Definition receipt_150 : Recebimento.t :=
  Recebimento.mk 1%Z 1%Z 10%Z 150 150 0 "pix" EmptyString.
End DashboardSpec.

Module AppSpec.
Import Supabase App.


(** The total of a list of amounts in double precision: from 0, one
    amount after the other in the order of the list, every addition
    rounded to a double. *)
Definition spec_doubleSum (amounts : list Q) : Float64.JsNumber :=
  fold_left (fun sum x => Float64.add sum (Float64.number x)) amounts (Float64.Finite 0).

(** The status an operation is shown with after a load, as the
    specification words it. *)
Definition spec_loadedStatus (now : Date) (op : Operation.t) : OperationStatus :=
  match Operation.status op with
  | aberto => if (Operation.dueDate op <? DateFns.dayOf now)%Z then atrasado else aberto
  | s => s
  end.

(** The status a reversal gives back to an operation that is no
    longer fully paid, as the specification words it. *)
Definition spec_reversalStatus (now : Date) (op : Operation.t) : OperationStatus :=
  if (Operation.dueDate op <? DateFns.dayOf now)%Z then atrasado else aberto.

(** [prev.map(op => op.id === id ? f(op) : op)] *)
Definition updateById (id : Z) (f : Operation.t -> Operation.t)
           (operations : list Operation.t) : list Operation.t :=
  map (fun op => if (Operation.id op =? id)%Z then f op else op) operations.

(** A store that accepts every request and holds the operations
    [rows]; an inserted receipt comes back with id 100. *)
Definition db_with (rows : list OperationRow.t) : Supabase.t :=
  Supabase.mk (Ok tt) (Ok []) (Ok rows) (Ok [])
              (fun _ => Ok [])
              (fun p => Ok (OperationRow.mk 100 (OperationPayload.client_id p) None
                              (OperationPayload.type p) (OperationPayload.title_number p)
                              (OperationPayload.nominal_value p) (OperationPayload.net_value p)
                              (OperationPayload.issue_date p) (OperationPayload.due_date p)
                              (OperationPayload.taxa p) (OperationPayload.status p)
                              (OperationPayload.observacoes p)))
              (fun _ _ => Ok tt)
              (fun p => Ok (Recebimento.mk 100 (ReceiptPayload.operation_id p)
                              (ReceiptPayload.data_recebimento p)
                              (ReceiptPayload.valor_total_recebido p)
                              (ReceiptPayload.valor_principal_pago p)
                              (ReceiptPayload.valor_juros_pago p)
                              (ReceiptPayload.forma_pagamento p)
                              (ReceiptPayload.observacoes p)))
              (fun _ => Ok tt).

(** The operations the reminder list is drawn from: open, not
    dismissed, due from today to seven days from today. *)
Definition spec_remindable (now : Date) (dismissed : list Z) (op : Operation.t) : bool :=
  OperationStatus_eqb (Operation.status op) aberto
  && negb (includes dismissed (Operation.id op))
  && (DateFns.dayOf now <=? Operation.dueDate op)%Z
  && (Operation.dueDate op <=? DateFns.dayOf now + 7)%Z.

(** An overdue operation that falls due in three days: day 103, seen
    at one o'clock of day 100. *)
Definition op_due_103 : Operation.t :=
  Operation.mk 1%Z (Some 7%Z) "Cliente" duplicata "D-1" 100 110 90%Z 103%Z 10 atrasado EmptyString.

Definition clock_day_100 : Date := (100 * DateFns.msPerDay + 3600000)%Z.

Definition db_ok : Supabase.t := db_with [].

Definition state_of (operations : list Operation.t)
           (receipts : list Recebimento.t) : State :=
  mkState [] operations receipts false [] [].

(** An operation of nominal value 500 that fell due on day 90, and
    receipts against it. *)
Definition op_500 (s : OperationStatus) : Operation.t :=
  Operation.mk 1%Z (Some 7%Z) "Cliente" cheque "C-1" 500 525 60%Z 90%Z 5 s EmptyString.

Definition row_500 (s : OperationStatus) (due : IsoDate) : OperationRow.t :=
  OperationRow.mk 1%Z (Some 7%Z) (Some "Cliente"%string) cheque "C-1" 500 525 60%Z due 5 s EmptyString.

Definition receipt_300 : Recebimento.t :=
  Recebimento.mk 10%Z 1%Z 95%Z 300 300 0 "pix" EmptyString.

Definition receipt_500 : Recebimento.t :=
  Recebimento.mk 11%Z 1%Z 95%Z 500 500 0 "pix" EmptyString.

Definition new_200 : NewRecebimento.t :=
  NewRecebimento.mk 1%Z 99%Z 200 200 0 "pix" EmptyString None.

Definition new_extension : NewRecebimento.t :=
  NewRecebimento.mk 1%Z 99%Z 0 0 0 "pix" EmptyString (Some 200%Z).







(** A plan of three installments over 100.00. *)
Definition opData_100_3 : NewOperation.t :=
  NewOperation.mk 7%Z parcelamento "P" 100 60%Z 90%Z 5 EmptyString (Some 3%Z).

(** A plan of forty installments over 39.875, and a plan of three
    installments over 123456789012345.67. *)
Definition opData_39875_40 : NewOperation.t :=
  NewOperation.mk 7%Z parcelamento "P" (319 # 8) 60%Z 90%Z 5 EmptyString (Some 40%Z).

Definition opData_large_3 : NewOperation.t :=
  NewOperation.mk 7%Z parcelamento "P" (12345678901234567 # 100) 60%Z 90%Z 5
                  EmptyString (Some 3%Z).

(** Thirty-day months and the local day: stand-ins for [addMonths]
    and [toISOString], to run the expansion. *)
Definition addMonths30 (d : Date) (i : Z) : Date :=
  (d + i * 30 * DateFns.msPerDay)%Z.
End AppSpec.

(** ** Specification side of the further properties *)

Module RestSpec.
Import Supabase App.

(** Two operations that differ at most in due date and status. *)
Definition sameTitle (a b : Operation.t) : Prop :=
  Operation.id a = Operation.id b
  /\ Operation.clientId a = Operation.clientId b
  /\ Operation.clientName a = Operation.clientName b
  /\ Operation.type a = Operation.type b
  /\ Operation.titleNumber a = Operation.titleNumber b
  /\ Operation.nominalValue a = Operation.nominalValue b
  /\ Operation.netValue a = Operation.netValue b
  /\ Operation.issueDate a = Operation.issueDate b
  /\ Operation.taxa a = Operation.taxa b
  /\ Operation.observacoes a = Operation.observacoes b.

(** Every receipt is a receipt of an operation of the state. *)
Definition receiptsHaveOperations (s : State) : Prop :=
  forall r, In r (receipts s) ->
            exists op, In op (operations s)
                       /\ Operation.id op = Recebimento.operationId r.

(** A store whose update of operations fails. *)
Definition db_update_fails : Supabase.t :=
  Supabase.mk (Ok tt) (Ok []) (Ok []) (Ok [])
              (operations_insert AppSpec.db_ok)
              (operations_insert_single AppSpec.db_ok)
              (fun _ _ => Err "offline")
              (receipts_insert AppSpec.db_ok)
              (fun _ => Ok tt).

(** A store that refuses everything. *)
Definition db_fails : Supabase.t :=
  Supabase.mk (Err "offline") (Err "offline") (Err "offline") (Err "offline")
              (fun _ => Err "offline") (fun _ => Err "offline")
              (fun _ _ => Err "offline") (fun _ => Err "offline")
              (fun _ => Err "offline").

Definition deletes_ok : AppRest.Deletes :=
  AppRest.mkDeletes (fun _ => Ok tt) (fun _ => Ok tt) (fun _ => Ok tt).

Definition deletes_fail : AppRest.Deletes :=
  AppRest.mkDeletes (fun _ => Err "offline") (fun _ => Err "offline")
                    (fun _ => Err "offline").

(** An administrator, signed in. *)
Definition user_ana : User.t := User.mk 3 "Ana" "ana@caribe" "Administrador" "x".

Definition signed_in_ana : AppRest.UsersState :=
  AppRest.mkUsersState [user_ana] (Some user_ana) [].


(** The active operations with their due dates, in the order
    [dueReminders] sorts them in. *)
Definition byDueDate (operations : list Operation.t) : list DashboardRest.WithDue :=
  sort (fun a b => (DateFns.getTime (DashboardRest.dueDateObj a)
                    - DateFns.getTime (DashboardRest.dueDateObj b))%Z)
       (map (fun op => DashboardRest.mkWithDue op (DateFns.parseISO (Operation.dueDate op)))
            (filter Dashboard.isActive operations)).
End RestSpec.

(** * Properties *)

(** ** Sums of amounts *)

Lemma fold_left_Qplus {A} (f : A -> Q) (xs : list A) (a : Q) :
  fold_left (fun sum x => sum + f x) xs a == a + Qsum (map f xs).
Proof.
  revert a; induction xs as [|x xs IH]; intro a; simpl.
  - lra.
  - rewrite IH. lra.
Qed.

Lemma reduce_sum_Qsum {A} (f : A -> Q) (xs : list A) :
  reduce_sum f xs == Qsum (map f xs).
Proof. unfold reduce_sum. rewrite fold_left_Qplus. lra. Qed.

Lemma Qsum_app (l1 l2 : list Q) : Qsum (l1 ++ l2) == Qsum l1 + Qsum l2.
Proof.
  induction l1 as [|x l1 IH]; simpl.
  - lra.
  - rewrite IH. lra.
Qed.

Lemma Qsum_nonneg (l : list Q) : Forall (fun x => 0 <= x) l -> 0 <= Qsum l.
Proof.
  induction 1 as [|x l Hx _ IH]; simpl; lra.
Qed.

Lemma OperationStatus_eqb_eq (a b : OperationStatus) :
  OperationStatus_eqb a b = true <-> a = b.
Proof. destruct a, b; simpl; split; intro H; congruence. Qed.

(** ** Rounding to doubles *)

Module Float64Facts.
Import Float64 Float64Spec.

Lemma Qltb_iff (a b : Q) : Qltb a b = true <-> a < b.
Proof.
  unfold Qltb. rewrite negb_true_iff.
  destruct (Qle_bool b a) eqn:T.
  - apply Qle_bool_iff in T. split; [discriminate|lra].
  - split; [|reflexivity]. intros _.
    destruct (Qlt_le_dec a b) as [H|H]; [exact H|].
    apply Qle_bool_iff in H. congruence.
Qed.

Lemma Qltb_false (a b : Q) : Qltb a b = false <-> b <= a.
Proof.
  unfold Qltb. rewrite negb_false_iff. apply Qle_bool_iff.
Qed.

Lemma pow2_pos (e : Z) : 0 < pow2 e.
Proof. apply Qpower_0_lt. reflexivity. Qed.

Lemma pow2_plus (a b : Z) : pow2 (a + b) == pow2 a * pow2 b.
Proof. apply Qpower_plus. discriminate. Qed.

Lemma pow2_succ (a : Z) : pow2 (a + 1) == 2 * pow2 a.
Proof. rewrite pow2_plus. change (pow2 1) with 2. ring. Qed.

Lemma pow2_pred (a : Z) : 2 * pow2 (a - 1) == pow2 a.
Proof.
  rewrite <- pow2_succ. unfold pow2. replace (a - 1 + 1)%Z with a by lia.
  reflexivity.
Qed.

Lemma pow2_le (a b : Z) : (a <= b)%Z -> pow2 a <= pow2 b.
Proof. intro H. apply Qpower_le_compat_l; [exact H|lra]. Qed.

Lemma roundEven_near (x : Q) : Qabs (inject_Z (roundEven x) - x) <= 1 # 2.
Proof.
  unfold roundEven.
  pose proof (Qfloor_le x) as F1. pose proof (Qlt_floor x) as F2.
  rewrite inject_Z_plus in F2. change (inject_Z 1) with 1 in F2.
  apply Qabs_Qle_condition.
  destruct (Qltb (x - inject_Z (Qfloor x)) (1 # 2)) eqn:A.
  - apply Qltb_iff in A. split; lra.
  - apply Qltb_false in A.
    destruct (Qltb (1 # 2) (x - inject_Z (Qfloor x))) eqn:A'.
    + rewrite inject_Z_plus. change (inject_Z 1) with 1. split; lra.
    + apply Qltb_false in A'. destruct (Z.even (Qfloor x)).
      * split; lra.
      * rewrite inject_Z_plus. change (inject_Z 1) with 1. split; lra.
Qed.

Lemma roundEven_nonneg (x : Q) : 0 <= x -> (0 <= roundEven x)%Z.
Proof.
  intro H. assert (F : (0 <= Qfloor x)%Z).
  { change 0%Z with (Qfloor 0). apply Qfloor_resp_le. exact H. }
  unfold roundEven.
  destruct (Qltb _ _); [exact F|].
  destruct (Qltb _ _); [lia|].
  destruct (Z.even _); lia.
Qed.

Lemma log2_bounds (n : Z) :
  (0 < n)%Z -> pow2 (Z.log2 n) <= inject_Z n /\ inject_Z n < 2 * pow2 (Z.log2 n).
Proof.
  intro Hn. destruct (Z.log2_spec n Hn) as [H1 H2].
  pose proof (Z.log2_nonneg n) as Hl.
  unfold pow2. split.
  - change 2 with (inject_Z 2). rewrite <- Zpower_Qpower by exact Hl.
    rewrite <- Zle_Qle. exact H1.
  - rewrite <- pow2_succ. unfold pow2.
    change 2 with (inject_Z 2). rewrite <- Zpower_Qpower by lia.
    rewrite <- Zlt_Qlt. exact H2.
Qed.

Lemma ilog2_spec (x : Q) :
  0 < x -> pow2 (ilog2 x) <= x /\ x < 2 * pow2 (ilog2 x).
Proof.
  intro Hx. unfold ilog2.
  destruct x as [n d]. cbn [Qnum Qden].
  assert (Hn : (0 < n)%Z).
  { unfold Qlt in Hx. simpl in Hx. lia. }
  destruct (log2_bounds n Hn) as [N1 N2].
  destruct (log2_bounds (Z.pos d) eq_refl) as [D1 D2].
  set (ln := Z.log2 n) in *. set (ld := Z.log2 (Z.pos d)) in *.
  assert (Ek : pow2 (ln - ld) * pow2 ld == pow2 ln).
  { rewrite <- pow2_plus. unfold pow2. replace (ln - ld + ld)%Z with ln by lia.
    reflexivity. }
  pose proof (pow2_pos (ln - ld)) as Pk. pose proof (pow2_pos ld) as Pd.
  pose proof (pow2_pos ln) as Pn.
  assert (Ex : (n # d) * inject_Z (Z.pos d) == inject_Z n).
  { unfold Qeq. simpl. rewrite ?Pos.mul_1_r. ring. }
  assert (Pdd : 0 < inject_Z (Z.pos d)) by reflexivity.
  destruct (Qle_bool (pow2 (ln - ld)) (n # d)) eqn:T.
  - apply Qle_bool_iff in T. split; [exact T|].
    set (k := pow2 (ln - ld)) in *. set (a := pow2 ln) in *. set (b := pow2 ld) in *.
    set (x := n # d) in *. set (dd := inject_Z (Z.pos d)) in *.
    set (nn := inject_Z n) in *.
    nra.
  - assert (T' : (n # d) < pow2 (ln - ld)).
    { destruct (Qlt_le_dec (n # d) (pow2 (ln - ld))) as [H|H]; [exact H|].
      apply Qle_bool_iff in H. congruence. }
    rewrite pow2_pred. split; [|exact T'].
    pose proof (pow2_pred (ln - ld)) as Ep. pose proof (pow2_pos (ln - ld - 1)) as Pp.
    set (k := pow2 (ln - ld)) in *. set (k1 := pow2 (ln - ld - 1)) in *.
    set (a := pow2 ln) in *. set (b := pow2 ld) in *.
    set (x := n # d) in *. set (dd := inject_Z (Z.pos d)) in *.
    set (nn := inject_Z n) in *.
    nra.
Qed.

Lemma ilog2_le (x : Q) (m : Z) : 0 < x -> x <= pow2 m -> (ilog2 x <= m)%Z.
Proof.
  intros Hx Hm. destruct (ilog2_spec x Hx) as [H1 _].
  destruct (Z_le_gt_dec (ilog2 x) m) as [H|H]; [exact H|].
  assert (H2 : pow2 (m + 1) <= pow2 (ilog2 x)) by (apply pow2_le; lia).
  rewrite pow2_succ in H2. pose proof (pow2_pos m). lra.
Qed.

Lemma Qabs_scale (a b : Q) : 0 < b -> Qabs (a * b) == Qabs a * b.
Proof.
  intro Hb. rewrite Qabs_Qmult. rewrite (Qabs_pos b) by lra. reflexivity.
Qed.

(** Rounding moves a number of magnitude at most [2 ^ m] by at most
    [2 ^ (m - 53)], as long as [m] is in the normal range. *)
Lemma roundFinite_error (x : Q) (m : Z) :
  (-1022 <= m)%Z -> Qabs x <= pow2 m ->
  Qabs (roundFinite x - x) <= pow2 (m - 53).
Proof.
  intros Hm Hx. unfold roundFinite.
  destruct (Qeq_bool x 0) eqn:E0.
  - apply Qeq_bool_iff in E0. rewrite E0. pose proof (pow2_pos (m - 53)).
    change (Qabs (0 - 0)) with 0. lra.
  - assert (Hne : ~ x == 0) by (intro H; apply Qeq_bool_iff in H; congruence).
    assert (Hpos : 0 < Qabs x).
    { pose proof (Qabs_nonneg x) as Hn.
      destruct (Qlt_le_dec 0 (Qabs x)) as [H|H]; [exact H|].
      exfalso. apply Hne. apply Qabs_Qle_condition in H. lra. }
    pose proof (ilog2_le (Qabs x) m Hpos Hx) as HL.
    set (e := Z.max (ilog2 (Qabs x) - 52) (-1074)).
    assert (He : (e <= m - 52)%Z) by (unfold e; lia).
    rewrite Qred_correct.
    pose proof (pow2_pos e) as Pe.
    pose proof (roundEven_near (x / pow2 e)) as Hr.
    assert (Es : inject_Z (roundEven (x / pow2 e)) * pow2 e - x
                 == (inject_Z (roundEven (x / pow2 e)) - x / pow2 e) * pow2 e)
      by (field; lra).
    rewrite Es, Qabs_scale by exact Pe.
    assert (Hp : pow2 e <= pow2 (m - 52)) by (apply pow2_le; exact He).
    assert (Hh : 2 * pow2 (m - 53) == pow2 (m - 52)).
    { rewrite <- pow2_succ. unfold pow2. replace (m - 53 + 1)%Z with (m - 52)%Z by lia.
      reflexivity. }
    pose proof (Qabs_nonneg (inject_Z (roundEven (x / pow2 e)) - x / pow2 e)) as Hn.
    set (a := Qabs (inject_Z (roundEven (x / pow2 e)) - x / pow2 e)) in *.
    set (p := pow2 e) in *. set (q := pow2 (m - 52)) in *. set (h := pow2 (m - 53)) in *.
    nra.
Qed.

Lemma roundFinite_nonneg (x : Q) : 0 <= x -> 0 <= roundFinite x.
Proof.
  intro H. unfold roundFinite. destruct (Qeq_bool x 0); [lra|].
  rewrite Qred_correct.
  set (e := Z.max (ilog2 (Qabs x) - 52) (-1074)).
  pose proof (pow2_pos e) as Pe.
  assert (Hq : 0 <= x / pow2 e).
  { unfold Qdiv. apply Qmult_le_0_compat; [exact H|].
    apply Qlt_le_weak. apply Qinv_lt_0_compat. exact Pe. }
  pose proof (roundEven_nonneg _ Hq) as Hr.
  rewrite Zle_Qle in Hr. change (inject_Z 0) with 0 in Hr.
  apply Qmult_le_0_compat; [exact Hr|lra].
Qed.

Lemma amount_round_nonneg (x : Q) : 0 <= x -> 0 <= amount (round x).
Proof.
  intro H. unfold round. destruct (Qle_bool _ _); cbn [amount]; [lra|].
  apply roundFinite_nonneg. exact H.
Qed.

Lemma roundFinite_near (x : Q) :
  Qabs x <= bound -> Qabs (roundFinite x - x) <= slack.
Proof.
  intro H. apply (roundFinite_error x 37); [lia|exact H].
Qed.

(** An amount within [bound] rounds to a finite double within
    [slack] of it. *)
Lemma round_near (x : Q) :
  Qabs x <= bound ->
  round x = Finite (roundFinite x) /\ Qabs (roundFinite x - x) <= slack.
Proof.
  intro H. pose proof (roundFinite_near x H) as Hn. split; [|exact Hn].
  unfold round.
  destruct (Qle_bool (pow2 1024) (Qabs (roundFinite x))) eqn:T; [|reflexivity].
  exfalso. apply Qle_bool_iff in T.
  assert (H38 : pow2 38 <= pow2 1024) by (apply pow2_le; lia).
  assert (E38 : pow2 38 == 274877906944) by reflexivity.
  rewrite E38 in H38.
  assert (Ha : Qabs (roundFinite x) <= Qabs x + Qabs (roundFinite x - x)).
  { assert (Et : roundFinite x == x + (roundFinite x - x)) by ring.
    rewrite Et at 1. apply Qabs_triangle. }
  unfold bound, slack in *. lra.
Qed.

Lemma add_near (a b : Q) :
  Qabs (a + b) <= bound ->
  add (Finite a) (Finite b) = Finite (roundFinite (a + b))
  /\ Qabs (roundFinite (a + b) - (a + b)) <= slack.
Proof. intro H. apply round_near. exact H. Qed.

Lemma sub_near (a b : Q) :
  Qabs (a + - b) <= bound ->
  sub (Finite a) (Finite b) = Finite (roundFinite (a + - b))
  /\ Qabs (roundFinite (a + - b) - (a + - b)) <= slack.
Proof. intro H. apply round_near. exact H. Qed.

Lemma mul_near (a b : Q) :
  Qabs (a * b) <= bound ->
  mul (Finite a) (Finite b) = Finite (roundFinite (a * b))
  /\ Qabs (roundFinite (a * b) - a * b) <= slack.
Proof. intro H. apply round_near. exact H. Qed.

Lemma div_near (a b : Q) :
  ~ b == 0 -> Qabs (a / b) <= bound ->
  div (Finite a) (Finite b) = Finite (roundFinite (a / b))
  /\ Qabs (roundFinite (a / b) - a / b) <= slack.
Proof.
  intros Hb H. unfold div.
  destruct (Qeq_bool b 0) eqn:T.
  - apply Qeq_bool_iff in T. contradiction.
  - apply round_near. exact H.
Qed.

End Float64Facts.

(** ** Portfolio figures *)

Module DashboardFacts.
Import Operation Dashboard DashboardSpec.


Lemma paidInterest_spec receipts op :
  paidInterest receipts op == spec_paidInterest receipts op.
Proof. apply reduce_sum_Qsum. Qed.

Lemma remainingPrincipal_nonneg receipts op : 0 <= remainingPrincipal receipts op.
Proof. apply Q.le_max_l. Qed.

Lemma remainingInterest_nonneg receipts op : 0 <= remainingInterest receipts op.
Proof. apply Q.le_max_l. Qed.

(** The loop of [stats], started from any accumulator: each figure is
    the accumulator plus the sum, over the operations visited, of the
    quantity the loop adds to it. *)
Lemma accumulate_fold receipts (l : list Operation.t) (acc : Stats) :
  let r := fold_left (accumulate receipts) l acc in
  activeCapital r == activeCapital acc + Qsum (map (remainingPrincipal receipts) l)
  /\ totalReceivables r == totalReceivables acc + Qsum (map (currentDebt receipts) l)
  /\ interestToReceive r == interestToReceive acc + Qsum (map (remainingInterest receipts) l)
  /\ delinquencyValue r == delinquencyValue acc + Qsum (map (delinquent receipts) l).
Proof.
  revert acc; induction l as [|op l IH]; intro acc; simpl.
  - repeat split; lra.
  - destruct (IH (accumulate receipts acc op)) as (H1 & H2 & H3 & H4).
    rewrite H1, H2, H3, H4. unfold accumulate, delinquent; simpl.
    destruct (OperationStatus_eqb (status op) atrasado); simpl;
      repeat split; lra.
Qed.

Lemma stats_sums operations receipts :
  let active := activeOperations operations in
  let r := stats operations receipts in
  activeCapital r == Qsum (map (remainingPrincipal receipts) active)
  /\ totalReceivables r == Qsum (map (currentDebt receipts) active)
  /\ interestToReceive r == Qsum (map (remainingInterest receipts) active)
  /\ delinquencyValue r == Qsum (map (delinquent receipts) active).
Proof.
  simpl. unfold stats.
  destruct (accumulate_fold receipts (activeOperations operations) (mkStats 0 0 0 0))
    as (H1 & H2 & H3 & H4).
  simpl in *. rewrite H1, H2, H3, H4. repeat split; lra.
Qed.








(** C4, at an operation the code mishandles.  With nominal value 100,
    net value 110 and no receipt, the interest still to be received is
    [110 - 100 = 10]; [stats] takes [nominalValue - netValue = -10] for
    the original interest and reports 0. *)
Theorem stats_interest_operands_swapped :
  originalInterest (op_100_110 aberto) == - (10)
  /\ remainingInterest [] (op_100_110 aberto) == 0
  /\ interestToReceive (stats [op_100_110 aberto] []) == 0
  /\ Qmax 0 ((netValue (op_100_110 aberto) - nominalValue (op_100_110 aberto))
             - spec_paidInterest [] (op_100_110 aberto)) == 10.
Proof. repeat split; vm_compute; reflexivity. Qed.
End DashboardFacts.


(** ** Sorting *)

Section SortFacts.
Context {A : Type} (compareFn : A -> A -> Z).

Lemma sort_insert_perm (x : A) (l : list A) :
  Permutation (sort_insert compareFn x l) (x :: l).
Proof.
  induction l as [|y l IH]; simpl.
  - reflexivity.
  - destruct (compareFn x y <=? 0)%Z.
    + reflexivity.
    + rewrite IH. apply perm_swap.
Qed.

Lemma sort_perm (l : list A) : Permutation (sort compareFn l) l.
Proof.
  induction l as [|x l IH]; simpl.
  - reflexivity.
  - rewrite sort_insert_perm. now apply perm_skip.
Qed.

(** An order the comparison decides: [compareFn a b <= 0] exactly
    when [a] may stand before [b]. *)
Variable before : A -> A -> Prop.
Hypothesis before_trans : forall a b c, before a b -> before b c -> before a c.
Hypothesis compare_le : forall a b, (compareFn a b <= 0)%Z -> before a b.
Hypothesis compare_gt : forall a b, (0 < compareFn a b)%Z -> before b a.

Lemma sort_insert_sorted (x : A) (l : list A) :
  StronglySorted before l -> StronglySorted before (sort_insert compareFn x l).
Proof.
  induction 1 as [|y l Hl IH Hy]; simpl.
  - constructor; constructor.
  - destruct (compareFn x y <=? 0)%Z eqn:E.
    + apply Z.leb_le in E. constructor.
      * now constructor.
      * constructor.
        -- now apply compare_le.
        -- eapply Forall_impl; [|exact Hy].
           intros z Hz. eapply before_trans; [|exact Hz]. now apply compare_le.
    + apply Z.leb_gt in E. constructor.
      * exact IH.
      * eapply Permutation_Forall.
        -- symmetry. apply sort_insert_perm.
        -- constructor; [now apply compare_gt | exact Hy].
Qed.

Lemma sort_sorted (l : list A) : StronglySorted before (sort compareFn l).
Proof.
  induction l as [|x l IH]; simpl.
  - constructor.
  - now apply sort_insert_sorted.
Qed.
End SortFacts.

(** ** Calendar days *)

Module DateFacts.
Import DateFns.

Lemma msPerDay_pos : (0 < msPerDay)%Z.
Proof. reflexivity. Qed.

Lemma startOfDay_parseISO (d : IsoDate) : startOfDay (parseISO d) = parseISO d.
Proof.
  unfold startOfDay, parseISO. rewrite Z.div_mul; [reflexivity|].
  discriminate.
Qed.

Lemma dayOf_bounds (t : Date) :
  (dayOf t * msPerDay <= t < (dayOf t + 1) * msPerDay)%Z.
Proof.
  unfold dayOf.
  pose proof (Z.div_mod t msPerDay ltac:(discriminate)) as E.
  pose proof (Z.mod_pos_bound t msPerDay msPerDay_pos) as B.
  lia.
Qed.

(** A due date is past and not today exactly when its day comes
    strictly before the day of the clock. *)
Lemma past_not_today (now : Date) (due : IsoDate) :
  isPast now (parseISO due) && negb (isToday now (parseISO due)) = true
  <-> (due < dayOf now)%Z.
Proof.
  unfold isPast, isToday. rewrite startOfDay_parseISO.
  unfold startOfDay, parseISO. fold (dayOf now).
  pose proof (dayOf_bounds now) as B. pose proof msPerDay_pos as P.
  rewrite andb_true_iff, negb_true_iff, Z.ltb_lt, Z.eqb_neq.
  split.
  - intros [H1 H2].
    assert (due <> dayOf now) by (intro; subst; apply H2; reflexivity).
    nia.
  - intro H. split; [nia|]. intro E.
    apply Z.mul_cancel_r in E; lia.
Qed.

(** Whole days from the start of today to a due date. *)
Lemma differenceInDays_today (now : Date) (due : IsoDate) :
  differenceInDays (parseISO due) (startOfDay now) = (due - dayOf now)%Z.
Proof.
  unfold differenceInDays, parseISO, startOfDay. fold (dayOf now).
  rewrite <- Z.mul_sub_distr_r. apply Z.quot_mul. discriminate.
Qed.
End DateFacts.


(** ** The handlers of [App] *)

Module AppFacts.
Import Supabase App AppSpec.

Lemma mapReceiptRow_id (r : Recebimento.t) : mapReceiptRow r = r.
Proof. destruct r; reflexivity. Qed.

Lemma isOverdue_iff (now : Date) (due : IsoDate) :
  isOverdue now due = true <-> (due < DateFns.dayOf now)%Z.
Proof. apply DateFacts.past_not_today. Qed.

Lemma isOverdue_ltb (now : Date) (due : IsoDate) :
  isOverdue now due = (due <? DateFns.dayOf now)%Z.
Proof.
  apply eq_true_iff_eq. rewrite isOverdue_iff, Z.ltb_lt. reflexivity.
Qed.

Lemma find_updateById (id : Z) (f : Operation.t -> Operation.t)
      (l : list Operation.t) (op : Operation.t) :
  (forall o, Operation.id (f o) = Operation.id o) ->
  find (fun o => (Operation.id o =? id)%Z) l = Some op ->
  find (fun o => (Operation.id o =? id)%Z) (updateById id f l) = Some (f op).
Proof.
  intros Hf. induction l as [|o l IH]; simpl; [discriminate|].
  destruct (Operation.id o =? id)%Z eqn:E.
  - intros [= ->]. rewrite Hf, E. reflexivity.
  - rewrite E. exact IH.
Qed.

Lemma find_id (id : Z) (l : list Operation.t) (op : Operation.t) :
  find (fun o => (Operation.id o =? id)%Z) l = Some op -> Operation.id op = id.
Proof.
  intro H. apply find_some in H. destruct H as [_ H]. now apply Z.eqb_eq.
Qed.

(** *** fetchData *)

Lemma autoUpdateOverdue_status (now : Date) (op : Operation.t) :
  autoUpdateOverdue now op = Operation.with_status op (spec_loadedStatus now op).
Proof.
  unfold autoUpdateOverdue, spec_loadedStatus. rewrite isOverdue_ltb.
  destruct op as [i c n ty ti nv net iss due tx st ob]; simpl.
  destruct st; simpl; try reflexivity.
  destruct (due <? DateFns.dayOf now)%Z; reflexivity.
Qed.

Lemma fetchData_operations (db : Supabase.t) (now : Date) (s : State)
      (clientsData : list Client.t) (opsData : list OperationRow.t) :
  users_select db = Ok tt ->
  clients_select db = Ok clientsData ->
  operations_select db = Ok opsData ->
  operations (snd (fetchData db now s)) = updatedOps now opsData.
Proof.
  intros Hu Hc Ho.
  unfold fetchData, tryFinally, tryCatch, bind, request, orThrow, ret, throw,
    setIsLoading, setClients, setOperations, setReceipts, addNotification,
    withIsLoading.
  simpl. rewrite Hu, Hc, Ho. simpl.
  destruct (receipts_select db); reflexivity.
Qed.

(** C8. When the operations are loaded, the state holds the stored
    operations (in some order), each with its stored fields and with
    status [atrasado] when it was stored [aberto] with a due date
    strictly before today, its stored status otherwise; no loaded
    operation is both [aberto] and strictly past due. *)
Theorem fetchData_overdue (db : Supabase.t) (now : Date) (s : State)
        (clientsData : list Client.t) (opsData : list OperationRow.t) :
  users_select db = Ok tt ->
  clients_select db = Ok clientsData ->
  operations_select db = Ok opsData ->
  let loaded := operations (snd (fetchData db now s)) in
  Permutation loaded
    (map (fun row => Operation.with_status
                       (mapOperationRow row)
                       (spec_loadedStatus now (mapOperationRow row)))
         opsData)
  /\ (forall row,
        spec_loadedStatus now (mapOperationRow row)
        = if OperationStatus_eqb (OperationRow.status row) aberto
             && (OperationRow.due_date row <? DateFns.dayOf now)%Z
          then atrasado else OperationRow.status row)
  /\ Forall (fun op => ~ (Operation.status op = aberto
                          /\ (Operation.dueDate op < DateFns.dayOf now)%Z))
            loaded.
Proof.
  intros Hu Hc Ho loaded.
  assert (E : loaded = updatedOps now opsData)
    by (apply (fetchData_operations db now s clientsData); assumption).
  assert (P : Permutation loaded
                (map (fun row => Operation.with_status
                                   (mapOperationRow row)
                                   (spec_loadedStatus now (mapOperationRow row)))
                     opsData)).
  { rewrite E. unfold updatedOps, mappedOps.
    rewrite (map_ext _ _ (autoUpdateOverdue_status now)).
    rewrite <- (map_map mapOperationRow
                  (fun op => Operation.with_status op (spec_loadedStatus now op))).
    apply Permutation_map. apply sort_perm. }
  split; [exact P|split].
  - intros row. unfold spec_loadedStatus, mapOperationRow; simpl.
    destruct (OperationRow.status row); simpl; try reflexivity.
  - eapply Permutation_Forall; [symmetry; exact P|].
    apply Forall_forall. intros op Hop.
    apply in_map_iff in Hop. destruct Hop as (row & <- & _).
    unfold spec_loadedStatus; simpl.
    destruct (OperationRow.status row); simpl.
    + destruct (OperationRow.due_date row <? DateFns.dayOf now)%Z eqn:L.
      * intros [H _]; discriminate.
      * apply Z.ltb_ge in L. intros [_ H]. lia.
    + intros [H _]; discriminate.
    + intros [H _]; discriminate.
Qed.

(** *** handleAddReceipt *)

Ltac run_handler :=
  unfold handleAddReceipt, handleDeleteReceipt, handleUpdateOperationStatus,
    tryCatch, bind, request, orThrow, ret, throw,
    setOperations, setReceipts, addNotification;
  simpl.

Lemma fold_left_amounts {A} (f : A -> Q) (l : list A) (acc : Float64.JsNumber) :
  fold_left (fun sum r => Float64.add sum (Float64.number (f r))) l acc
  = fold_left (fun sum x => Float64.add sum (Float64.number x)) (map f l) acc.
Proof.
  revert acc; induction l as [|r l IH]; intro acc; simpl; [reflexivity|apply IH].
Qed.

(** The [reduce] of the source over the receipts is the total in
    doubles of their principal amounts. *)
Lemma reduce_doubleSum (l : list Recebimento.t) :
  fold_left (fun sum r => Float64.add sum
                            (Float64.number (Recebimento.valor_principal_pago r)))
            l (Float64.Finite 0)
  = spec_doubleSum (map Recebimento.valor_principal_pago l).
Proof. apply fold_left_amounts. Qed.

Lemma doubleSum_snoc (amounts : list Q) (x : Q) :
  spec_doubleSum (amounts ++ [x])
  = Float64.add (spec_doubleSum amounts) (Float64.number x).
Proof. unfold spec_doubleSum. rewrite fold_left_app. reflexivity. Qed.





(** C2. A receipt that carries a [newDueDate] replaces the due date
    of its operation by that date and sets its status to [aberto],
    whatever the status was; the only requests sent are the insertion
    of the receipt and that update: the principal paid is not compared
    with the nominal value. *)
Theorem handleAddReceipt_extension (db : Supabase.t) (s : State)
        (receiptData : NewRecebimento.t) (data : Recebimento.t)
        (operation : Operation.t) (newDueDate : IsoDate) :
  NewRecebimento.newDueDate receiptData = Some newDueDate ->
  receipts_insert db (receiptPayload receiptData) = Ok data ->
  find (fun op => (Operation.id op =? NewRecebimento.operationId receiptData)%Z)
       (operations s) = Some operation ->
  operations_update db (mkPatch (Some newDueDate) (Some aberto))
                    (Operation.id operation) = Ok tt ->
  let s' := snd (handleAddReceipt db receiptData s) in
  operations s'
  = updateById (Operation.id operation)
               (fun op => Operation.with_dueDate_status op newDueDate aberto)
               (operations s)
  /\ (exists operation',
        find (fun op => (Operation.id op =? NewRecebimento.operationId receiptData)%Z)
             (operations s') = Some operation'
        /\ Operation.dueDate operation' = newDueDate
        /\ Operation.status operation' = aberto
        /\ Operation.nominalValue operation' = Operation.nominalValue operation)
  /\ receipts s' = data :: receipts s
  /\ calls s'
     = calls s ++ [ReceiptsInsert (receiptPayload receiptData);
                   OperationsUpdate (mkPatch (Some newDueDate) (Some aberto))
                                    (Operation.id operation)].
Proof.
  intros Hnew Hins Hfind Hupd s'.
  assert (Hid : Operation.id operation = NewRecebimento.operationId receiptData)
    by (eapply find_id; eassumption).
  assert (E : operations s'
              = updateById (Operation.id operation)
                  (fun op => Operation.with_dueDate_status op newDueDate aberto)
                  (operations s)).
  { subst s'. run_handler. rewrite Hins, Hfind, Hnew. simpl.
    rewrite Hupd. reflexivity. }
  split; [exact E|split; [|split]].
  - exists (Operation.with_dueDate_status operation newDueDate aberto).
    split; [|repeat split].
    rewrite E, Hid.
    apply (find_updateById _ (fun op => Operation.with_dueDate_status op newDueDate aberto)
                           _ operation);
      [reflexivity|exact Hfind].
  - subst s'. run_handler. rewrite Hins, Hfind, Hnew. simpl.
    rewrite Hupd, mapReceiptRow_id. reflexivity.
  - subst s'. run_handler. rewrite Hins, Hfind, Hnew. simpl.
    rewrite Hupd. simpl. rewrite <- app_assoc. reflexivity.
Qed.

(** *** handleDeleteReceipt *)

Lemma filter_filter {A} (f g : A -> bool) (l : list A) :
  filter f (filter g l) = filter (fun x => f x && g x) l.
Proof.
  induction l as [|x l IH]; simpl; [reflexivity|].
  destruct (g x); simpl.
  - destruct (f x); simpl; now rewrite IH.
  - rewrite andb_false_r. exact IH.
Qed.

Lemma find_none_iff {A} (f : A -> bool) (l : list A) :
  find f l = None <-> (forall x, In x l -> f x = false).
Proof.
  split.
  - apply find_none.
  - induction l as [|x l IH]; simpl; [reflexivity|].
    intro H. rewrite (H x (or_introl eq_refl)). apply IH.
    intros y Hy. apply H. now right.
Qed.



(** C10. Deleting a receipt id that no receipt of the state carries
    does nothing: the handler returns at once, the state is the one it
    was given, and no request has been added to [calls]. *)
Theorem handleDeleteReceipt_unknown (db : Supabase.t) (now : Date) (s : State)
        (receiptId : Z) :
  (forall r, In r (receipts s) -> Recebimento.id r <> receiptId) ->
  handleDeleteReceipt db now receiptId s = (Returned tt, s).
Proof.
  intro H. unfold handleDeleteReceipt.
  replace (find (fun r => (Recebimento.id r =? receiptId)%Z) (receipts s))
    with (@None Recebimento.t).
  - reflexivity.
  - symmetry. apply find_none_iff. intros r Hr. apply Z.eqb_neq. now apply H.
Qed.

(** *** activeReminders *)

Lemma includes_In (xs : list Z) (x : Z) : includes xs x = true <-> In x xs.
Proof.
  unfold includes. rewrite existsb_exists. split.
  - intros (y & Hy & E). apply Z.eqb_eq in E. now subst.
  - intro H. exists x. split; [exact H|apply Z.eqb_refl].
Qed.

Lemma activeReminders_filter (now : Date) (dismissed : list Z) (op : Operation.t) :
  (if negb (OperationStatus_eqb (Operation.status op) aberto)
      || includes dismissed (Operation.id op)
   then false
   else
     let dueDate := DateFns.parseISO (Operation.dueDate op) in
     let daysDiff := DateFns.differenceInDays dueDate (DateFns.startOfDay now) in
     (daysDiff >=? 0)%Z && (daysDiff <=? REMINDER_WINDOW_DAYS)%Z)
  = spec_remindable now dismissed op.
Proof.
  unfold spec_remindable, REMINDER_WINDOW_DAYS. simpl.
  rewrite DateFacts.differenceInDays_today.
  destruct (OperationStatus_eqb (Operation.status op) aberto); simpl; [|reflexivity].
  destruct (includes dismissed (Operation.id op)); simpl; [reflexivity|].
  apply eq_true_iff_eq. rewrite !andb_true_iff, Z.geb_le, !Z.leb_le. lia.
Qed.

(** C9, as stated, fails: an operation in status [atrasado], due
    within the window and not dismissed, is an active operation and
    yet has no reminder. *)
Lemma activeReminders_skips_atrasado :
  Dashboard.isActive op_due_103 = true
  /\ (DateFns.dayOf clock_day_100 <= Operation.dueDate op_due_103
      <= DateFns.dayOf clock_day_100 + 7)%Z
  /\ ~ In (Operation.id op_due_103) []
  /\ activeReminders clock_day_100 [] [op_due_103] = []
  /\ ~ In (reminderOf op_due_103) (activeReminders clock_day_100 [] [op_due_103]).
Proof.
  split; [reflexivity|split; [|split; [|split]]].
  - vm_compute. split; discriminate.
  - intros [].
  - vm_compute. reflexivity.
  - vm_compute. intros [].
Qed.

(** C9, amended.  The reminder list holds exactly the operations in
    status [aberto] (an [atrasado] operation has no reminder) that
    fall due from today to seven days from today and whose id is not
    dismissed, in ascending order of due date. *)
Theorem activeReminders_open_only (now : Date) (dismissed : list Z)
        (operations : list Operation.t) :
  let reminders := activeReminders now dismissed operations in
  Permutation reminders
    (map reminderOf (filter (spec_remindable now dismissed) operations))
  /\ StronglySorted (fun a b => (Reminder.dueDate a <= Reminder.dueDate b)%Z) reminders
  /\ (forall r, In r reminders <->
        exists op, In op operations
                   /\ r = reminderOf op
                   /\ Operation.status op = aberto
                   /\ ~ In (Operation.id op) dismissed
                   /\ (DateFns.dayOf now <= Operation.dueDate op
                       <= DateFns.dayOf now + 7)%Z).
Proof.
  intro reminders.
  assert (P : Permutation reminders
                (map reminderOf (filter (spec_remindable now dismissed) operations))).
  { subst reminders. unfold activeReminders.
    rewrite (filter_ext _ _ (activeReminders_filter now dismissed)).
    apply sort_perm. }
  split; [exact P|split].
  - subst reminders. unfold activeReminders. apply sort_sorted.
    + intros a b c. lia.
    + intros a b. unfold DateFns.getTime, DateFns.parseISO.
      pose proof DateFacts.msPerDay_pos. nia.
    + intros a b. unfold DateFns.getTime, DateFns.parseISO.
      pose proof DateFacts.msPerDay_pos. nia.
  - intro r. split.
    + intro Hr. apply (Permutation_in _ P) in Hr.
      apply in_map_iff in Hr. destruct Hr as (op & <- & Hop).
      apply filter_In in Hop. destruct Hop as [Hin Hp].
      unfold spec_remindable in Hp.
      rewrite !andb_true_iff, negb_true_iff, !Z.leb_le in Hp.
      destruct Hp as [[[Hs Hd] H1] H2].
      exists op. repeat split; try assumption.
      * now apply OperationStatus_eqb_eq.
      * intro Hc. apply includes_In in Hc. congruence.
    + intros (op & Hin & -> & Hs & Hd & H1 & H2).
      apply (Permutation_in _ (Permutation_sym P)).
      apply in_map. apply filter_In. split; [exact Hin|].
      unfold spec_remindable.
      rewrite !andb_true_iff, negb_true_iff, !Z.leb_le.
      repeat split; try assumption.
      * now apply OperationStatus_eqb_eq.
      * destruct (includes dismissed (Operation.id op)) eqn:E; [|reflexivity].
        apply includes_In in E. contradiction.
Qed.

(** *** handleAddOperation: installments *)

Lemma Qfloor_unique (x : Q) (k : Z) :
  inject_Z k <= x -> x < inject_Z (k + 1) -> Qfloor x = k.
Proof.
  intros H1 H2.
  pose proof (Qfloor_le x) as F1. pose proof (Qlt_floor x) as F2.
  assert (k < Qfloor x + 1)%Z by (rewrite Zlt_Qlt; lra).
  assert (Qfloor x < k + 1)%Z by (rewrite Zlt_Qlt; lra).
  lia.
Qed.

Lemma Qlt_bool_iff (a b : Q) : Qlt_bool a b = true <-> a < b.
Proof. apply Float64Facts.Qltb_iff. Qed.

(** A number within half a cent of [z] hundredths is written as [z]
    hundredths. *)
Lemma toFixed2_near (x : Q) (z : Z) :
  Qabs (x * 100 - inject_Z z) < 1 # 2 -> toFixed2 x = z.
Proof.
  intro H. apply Qabs_Qlt_condition in H. destruct H as [H1 H2].
  unfold toFixed2. destruct (Qlt_bool x 0).
  - assert (F : Qfloor (- x * 100 + (1 # 2)) = (- z)%Z).
    { apply Qfloor_unique.
      - rewrite inject_Z_opp. lra.
      - rewrite inject_Z_plus, inject_Z_opp. change (inject_Z 1) with 1. lra. }
    rewrite F. lia.
  - apply Qfloor_unique.
    + lra.
    + rewrite inject_Z_plus. change (inject_Z 1) with 1. lra.
Qed.

(** What [toFixed(2)] writes is within half a cent of the number. *)
Lemma toFixed2_error (x : Q) : Qabs (inject_Z (toFixed2 x) - x * 100) <= 1 # 2.
Proof.
  unfold toFixed2. apply Qabs_Qle_condition.
  destruct (Qlt_bool x 0).
  - pose proof (Qfloor_le (- x * 100 + (1 # 2))) as F1.
    pose proof (Qlt_floor (- x * 100 + (1 # 2))) as F2.
    rewrite inject_Z_plus in F2. change (inject_Z 1) with 1 in F2.
    rewrite inject_Z_opp. split; lra.
  - pose proof (Qfloor_le (x * 100 + (1 # 2))) as F1.
    pose proof (Qlt_floor (x * 100 + (1 # 2))) as F2.
    rewrite inject_Z_plus in F2. change (inject_Z 1) with 1 in F2.
    split; lra.
Qed.

(** A count of installments from 2 to 60 is a double. *)
Lemma number_count (count : Z) :
  (2 <= count <= 60)%Z ->
  Float64.number (inject_Z count)
  = Float64.Finite (Float64.roundFinite (inject_Z count))
  /\ Float64.roundFinite (inject_Z count) == inject_Z count.
Proof.
  intro H.
  assert (A : forallb (fun n => Qeq_bool (Float64.roundFinite (inject_Z (Z.of_nat n)))
                                         (inject_Z (Z.of_nat n)))
                      (seq 2 59) = true) by (vm_compute; reflexivity).
  rewrite forallb_forall in A.
  assert (Hn : In (Z.to_nat count) (seq 2 59)) by (apply in_seq; lia).
  apply A in Hn. rewrite Z2Nat.id in Hn by lia. apply Qeq_bool_iff in Hn.
  split; [|exact Hn].
  apply Float64Facts.round_near. rewrite Qabs_pos.
  - unfold Float64Spec.bound.
    apply Qle_trans with (inject_Z 60); [rewrite <- Zle_Qle; lia|].
    vm_compute. discriminate.
  - change 0 with (inject_Z 0). rewrite <- Zle_Qle. lia.
Qed.

Lemma round2_near (q : Q) :
  Qabs q <= Float64Spec.bound - 1 ->
  round2 (Float64.Finite q)
  = Float64.Finite (Float64.roundFinite (inject_Z (toFixed2 q) / 100))
  /\ Qabs (Float64.roundFinite (inject_Z (toFixed2 q) / 100)
           - inject_Z (toFixed2 q) / 100) <= Float64Spec.slack.
Proof.
  intro H. unfold round2.
  destruct (Qle_bool (inject_Z (10 ^ 21)) (Qabs q)) eqn:T.
  - apply Qle_bool_iff in T. exfalso.
    assert (Float64Spec.bound < inject_Z (10 ^ 21)) by reflexivity. lra.
  - apply Float64Facts.round_near.
    pose proof (toFixed2_error q) as He.
    apply Qabs_Qle_condition in He. apply Qabs_Qle_condition in H.
    apply Qabs_Qle_condition.
    unfold Qdiv. change (/ 100) with (1 # 100).
    unfold Float64Spec.bound in *. split; lra.
Qed.

Lemma scale_60 (a e k : Q) :
  - e <= a <= e -> 0 <= k <= 60 -> - (60 * e) <= a * k <= 60 * e.
Proof. intros [H1 H2] [H3 H4]. split; nra. Qed.

Lemma scale_half (a k : Q) :
  - (1 # 2) <= a <= 1 # 2 -> 0 <= k -> - ((1 # 2) * k) <= a * k <= (1 # 2) * k.
Proof. intros [H1 H2] H3. split; nra. Qed.

(** The installments of a whole number [c] of cents, up to ten to the
    thirteenth: in cents, [p] each and [p + d] the last, where
    [p * count + d = c]; the doubles are within a thousandth of a cent
    of these. *)
Lemma installments_cents (opData : NewOperation.t) (c count : Z) :
  (0 <= c <= 10 ^ 13)%Z -> (2 <= count <= 60)%Z ->
  NewOperation.nominalValue opData == inject_Z c / 100 ->
  exists (p d : Z) (per last : Q),
    nominalPerInstallment opData count = Float64.Finite per
    /\ Float64.add (nominalPerInstallment opData count) (diff opData count)
       = Float64.Finite last
    /\ (p * count + d = c)%Z
    /\ (2 * Z.abs d <= count)%Z
    /\ Qabs (per * 100 - inject_Z p) <= 100 * Float64Spec.slack
    /\ Qabs (last * 100 - inject_Z (p + d)) <= 300 * Float64Spec.slack.
Proof.
  intros Hc Hk HN.
  set (N := NewOperation.nominalValue opData) in *.
  assert (HC : 0 <= inject_Z c <= inject_Z (10 ^ 13))
    by (split; [change 0 with (inject_Z 0)|]; rewrite <- Zle_Qle; lia).
  change (inject_Z (10 ^ 13)) with 10000000000000 in HC.
  assert (Hk' : 2 <= inject_Z count <= 60).
  { change 2 with (inject_Z 2). change 60 with (inject_Z 60).
    rewrite <- !Zle_Qle. exact Hk. }
  set (C := inject_Z c) in *. set (k := inject_Z count) in *.
  unfold Qdiv in HN. change (/ 100) with (1 # 100) in HN.
  (* totalNominal *)
  destruct (Float64Facts.round_near N) as [R1 A1].
  { apply Qabs_Qle_condition. unfold Float64Spec.bound. split; lra. }
  apply Qabs_Qle_condition in A1.
  set (n1 := Float64.roundFinite N) in *.
  (* count *)
  destruct (number_count count Hk) as [R2 E2].
  fold k in R2, E2. set (k1 := Float64.roundFinite k) in *.
  assert (Hk1 : 2 <= k1 <= 60) by (rewrite E2; exact Hk').
  (* totalNominal / count *)
  assert (Q0 : n1 / k1 * k1 == n1) by (field; lra).
  destruct (Float64Facts.div_near n1 k1) as [R3 A3].
  { lra. }
  { set (q0 := n1 / k1) in *. apply Qabs_Qle_condition.
    unfold Float64Spec.bound, Float64Spec.slack in *.
    destruct (Qlt_le_dec q0 0); split; nra. }
  apply Qabs_Qle_condition in A3.
  set (q0 := n1 / k1) in *. set (x0 := Float64.roundFinite q0) in *.
  assert (Hq0 : - 100000000001 <= q0 <= 100000000001).
  { unfold Float64Spec.slack in *. destruct (Qlt_le_dec q0 0); split; nra. }
  (* nominalPerInstallment *)
  destruct (round2_near x0) as [R4 A4].
  { apply Qabs_Qle_condition. unfold Float64Spec.bound, Float64Spec.slack in *.
    split; lra. }
  apply Qabs_Qle_condition in A4.
  pose proof (toFixed2_error x0) as H4. apply Qabs_Qle_condition in H4.
  set (p := toFixed2 x0) in *. set (P := inject_Z p) in *.
  unfold Qdiv in R4, A4. change (/ 100) with (1 # 100) in R4, A4.
  set (per := Float64.roundFinite (P * (1 # 100))) in *.
  assert (Eper : nominalPerInstallment opData count = Float64.Finite per).
  { unfold nominalPerInstallment, totalNominal. fold k N. rewrite R2.
    unfold Float64.number. rewrite R1, R3. exact R4. }
  (* totalCalculated *)
  assert (W3 : - (60 * Float64Spec.slack) <= (per - P * (1 # 100)) * k1
               <= 60 * Float64Spec.slack)
    by (apply scale_60; [exact A4|lra]).
  assert (W2 : - (60 * Float64Spec.slack) <= (x0 - q0) * k1 <= 60 * Float64Spec.slack)
    by (apply scale_60; [exact A3|lra]).
  assert (Wh : - ((1 # 2) * k1) <= (P - x0 * 100) * k1 <= (1 # 2) * k1)
    by (apply scale_half; [exact H4|lra]).
  assert (EPK : P * k1 == (P - x0 * 100) * k1 + 100 * ((x0 - q0) * k1) + 100 * n1)
    by (rewrite <- Q0; ring).
  assert (Eperk : per * k1 == P * k1 * (1 # 100) + (per - P * (1 # 100)) * k1) by ring.
  set (w3 := (per - P * (1 # 100)) * k1) in *.
  set (w2 := (x0 - q0) * k1) in *.
  set (wh := (P - x0 * 100) * k1) in *.
  set (PK := P * k1) in *.
  destruct (Float64Facts.mul_near per k1) as [R5 A5].
  { apply Qabs_Qle_condition. unfold Float64Spec.bound, Float64Spec.slack in *.
    split; lra. }
  apply Qabs_Qle_condition in A5.
  set (t := Float64.roundFinite (per * k1)) in *.
  assert (Et : totalCalculated opData count = Float64.Finite t).
  { unfold totalCalculated. rewrite Eper. fold k. rewrite R2. exact R5. }
  (* diff *)
  destruct (Float64Facts.sub_near n1 t) as [R6 A6].
  { apply Qabs_Qle_condition. unfold Float64Spec.bound, Float64Spec.slack in *.
    split; lra. }
  apply Qabs_Qle_condition in A6.
  set (y := Float64.roundFinite (n1 + - t)) in *.
  destruct (round2_near y) as [R7 A7].
  { apply Qabs_Qle_condition. unfold Float64Spec.bound, Float64Spec.slack in *.
    split; lra. }
  apply Qabs_Qle_condition in A7.
  set (d := (c - p * count)%Z).
  assert (ED : inject_Z d == C - PK).
  { unfold d, PK, P, C. unfold Z.sub.
    rewrite inject_Z_plus, inject_Z_opp, inject_Z_mult. fold k. rewrite E2. ring. }
  assert (Hd : toFixed2 y = d).
  { apply toFixed2_near. apply Qabs_Qlt_condition. rewrite ED.
    unfold Float64Spec.slack in *. split; lra. }
  rewrite Hd in R7, A7. unfold Qdiv in R7, A7. change (/ 100) with (1 # 100) in R7, A7.
  set (D := inject_Z d) in *. set (dd := Float64.roundFinite (D * (1 # 100))) in *.
  assert (Ediff : diff opData count = Float64.Finite dd).
  { unfold diff, totalNominal, Float64.number. fold N. rewrite R1, Et, R6. exact R7. }
  (* the last installment *)
  destruct (Float64Facts.add_near per dd) as [R8 A8].
  { apply Qabs_Qle_condition. unfold Float64Spec.bound, Float64Spec.slack in *.
    split; lra. }
  apply Qabs_Qle_condition in A8.
  set (last := Float64.roundFinite (per + dd)) in *.
  exists p, d, per, last.
  split; [exact Eper|]. split; [rewrite Eper, Ediff; exact R8|].
  split; [unfold d; lia|]. split; [|split].
  - assert (U : inject_Z (2 * d) < inject_Z (count + 1)).
    { rewrite inject_Z_mult, inject_Z_plus. fold D k.
      change (inject_Z 2) with 2. change (inject_Z 1) with 1.
      unfold Float64Spec.slack in *. lra. }
    assert (L : inject_Z (- (count + 1)) < inject_Z (2 * d)).
    { rewrite inject_Z_opp, inject_Z_mult, inject_Z_plus. fold D k.
      change (inject_Z 2) with 2. change (inject_Z 1) with 1.
      unfold Float64Spec.slack in *. lra. }
    rewrite <- Zlt_Qlt in U, L. lia.
  - apply Qabs_Qle_condition. fold P. unfold Float64Spec.slack in *. split; lra.
  - apply Qabs_Qle_condition. rewrite inject_Z_plus. fold P D.
    unfold Float64Spec.slack in *. split; lra.
Qed.

Lemma Qsum_const {A} (p : Q) (l : list A) :
  Qsum (map (fun _ => p) l) == p * inject_Z (Z.of_nat (List.length l)).
Proof.
  induction l as [|x l IH].
  - cbn [map Qsum List.length]. change (inject_Z (Z.of_nat 0)) with 0. lra.
  - cbn [map Qsum List.length]. rewrite IH, Nat2Z.inj_succ.
    unfold Z.succ. rewrite inject_Z_plus. change (inject_Z 1) with 1. lra.
Qed.

(** The values of a plan of [S m] installments: [p] for each but the
    last, which is [l]. *)
Lemma Qsum_installments (p l : Q) (m : nat) :
  Qsum (map (fun i => if (Z.of_nat i =? Z.of_nat (S m) - 1)%Z then l else p)
            (seq 0 (S m)))
  == p * inject_Z (Z.of_nat m) + l.
Proof.
  rewrite seq_S, map_app, Qsum_app. cbn [map Qsum Nat.add].
  replace (Z.of_nat m =? Z.of_nat (S m) - 1)%Z with true
    by (symmetry; apply Z.eqb_eq; lia).
  rewrite (map_ext_in _ (fun _ => p)).
  - rewrite Qsum_const, length_seq. lra.
  - intros i Hi. apply in_seq in Hi.
    replace (Z.of_nat i =? Z.of_nat (S m) - 1)%Z with false; [reflexivity|].
    symmetry. apply Z.eqb_neq. lia.
Qed.

Lemma installmentCount_engaged (opData : NewOperation.t) (count : Z) :
  NewOperation.type opData = parcelamento ->
  NewOperation.installments opData = Some count ->
  (2 <= count)%Z ->
  installmentCount opData = Some count.
Proof.
  intros Ht Hi Hc. unfold installmentCount. rewrite Hi, Ht. simpl.
  replace (count =? 0)%Z with false by (symmetry; apply Z.eqb_neq; lia).
  replace (count >? 1)%Z with true by (symmetry; apply Z.gtb_lt; lia).
  reflexivity.
Qed.

(** The nominal values of the drafts: the share for each, the share
    plus the residual for the last. *)
Lemma bulkOperations_values (addMonths : Date -> Z -> Date) (toISODate : Date -> IsoDate)
      (opData : NewOperation.t) (count : Z) :
  map OperationPayload.nominal_value (bulkOperations addMonths toISODate opData count)
  = map (fun i => if (Z.of_nat i =? count - 1)%Z
                  then Float64.amount (Float64.add (nominalPerInstallment opData count)
                                                   (diff opData count))
                  else Float64.amount (nominalPerInstallment opData count))
        (seq 0 (Z.to_nat count)).
Proof.
  unfold bulkOperations. rewrite map_map. apply map_ext. intro i.
  unfold installmentPayload. cbn [OperationPayload.nominal_value].
  destruct (Z.of_nat i =? count - 1)%Z; reflexivity.
Qed.

(** What the drafts of a whole number [c] of cents are, in cents. *)
Lemma bulkOperations_cents (addMonths : Date -> Z -> Date) (toISODate : Date -> IsoDate)
      (opData : NewOperation.t) (c count : Z) :
  (0 <= c <= 10 ^ 13)%Z -> (2 <= count <= 60)%Z ->
  NewOperation.nominalValue opData == inject_Z c / 100 ->
  let values :=
    map OperationPayload.nominal_value
        (bulkOperations addMonths toISODate opData count) in
  exists p d : Z,
    p = toFixed2 (Float64.amount (nominalPerInstallment opData count))
    /\ (p * count + d = c)%Z
    /\ (2 * Z.abs d <= count)%Z
    /\ map toFixed2 values
       = map (fun i => if (Z.of_nat i =? count - 1)%Z then (p + d)%Z else p)
             (seq 0 (Z.to_nat count))
    /\ toFixed2 (Qsum values) = c.
Proof.
  intros Hc Hk HN values.
  destruct (installments_cents opData c count Hc Hk HN)
    as (p & d & per & last & Eper & Elast & Hpd & Hd & Aper & Alast).
  assert (Hvalues : values
                    = map (fun i => if (Z.of_nat i =? count - 1)%Z then last else per)
                          (seq 0 (Z.to_nat count))).
  { subst values. rewrite bulkOperations_values, Elast, Eper. reflexivity. }
  assert (Hp : toFixed2 per = p).
  { apply toFixed2_near. apply Qabs_Qle_condition in Aper. apply Qabs_Qlt_condition.
    unfold Float64Spec.slack in *. split; lra. }
  assert (Hl : toFixed2 last = (p + d)%Z).
  { apply toFixed2_near. apply Qabs_Qle_condition in Alast. apply Qabs_Qlt_condition.
    unfold Float64Spec.slack in *. split; lra. }
  exists p, d.
  split; [rewrite Eper; symmetry; exact Hp|].
  split; [exact Hpd|]. split; [exact Hd|]. split.
  - rewrite Hvalues, map_map. apply map_ext. intro i.
    destruct (Z.of_nat i =? count - 1)%Z; assumption.
  - apply toFixed2_near. rewrite Hvalues.
    destruct (Z.to_nat count) as [|m] eqn:Em; [lia|].
    assert (Ec : count = Z.of_nat (S m)) by lia.
    rewrite Ec, Qsum_installments.
    assert (Hm : inject_Z (Z.of_nat m) == inject_Z count - 1).
    { rewrite Ec, Nat2Z.inj_succ. unfold Z.succ. rewrite inject_Z_plus.
      change (inject_Z 1) with 1. ring. }
    assert (Hk' : 2 <= inject_Z count <= 60).
    { change 2 with (inject_Z 2). change 60 with (inject_Z 60).
      rewrite <- !Zle_Qle. exact Hk. }
    assert (EC : inject_Z c == inject_Z p * inject_Z count + inject_Z d).
    { rewrite <- Hpd, inject_Z_plus, inject_Z_mult. reflexivity. }
    rewrite inject_Z_plus in Alast.
    apply Qabs_Qle_condition in Aper. apply Qabs_Qle_condition in Alast.
    assert (W : - (60 * (100 * Float64Spec.slack))
                <= (per * 100 - inject_Z p) * inject_Z (Z.of_nat m)
                <= 60 * (100 * Float64Spec.slack))
      by (apply scale_60; [exact Aper|lra]).
    assert (Ew : (per * inject_Z (Z.of_nat m) + last) * 100 - inject_Z c
                 == (per * 100 - inject_Z p) * inject_Z (Z.of_nat m)
                    + (last * 100 - (inject_Z p + inject_Z d)))
      by (rewrite EC, Hm; ring).
    rewrite Ew.
    set (w := (per * 100 - inject_Z p) * inject_Z (Z.of_nat m)) in *.
    apply Qabs_Qlt_condition. unfold Float64Spec.slack in *. split; lra.
Qed.

(** C5, as stated, fails.  The nominal value 39.875 in 40 installments
    gives 39 drafts of 1.00 and one of 0.87: they sum to 39.87, while
    39.875 is 39.88 to two decimals.  And the nominal value
    123456789012345.67 in 3 installments gives drafts that sum to more
    than a cent less than it: 123456789012345.66 to two decimals. *)
Lemma installments_lose_a_cent :
  let values (opData : NewOperation.t) (count : Z) :=
    map OperationPayload.nominal_value
        (bulkOperations addMonths30 DateFns.dayOf opData count) in
  installmentCount opData_39875_40 = Some 40%Z
  /\ map toFixed2 (values opData_39875_40 40%Z)
     = repeat 100%Z 39 ++ [87%Z]
  /\ toFixed2 (Qsum (values opData_39875_40 40%Z)) = 3987%Z
  /\ toFixed2 (NewOperation.nominalValue opData_39875_40) = 3988%Z
  /\ installmentCount opData_large_3 = Some 3%Z
  /\ toFixed2 (Qsum (values opData_large_3 3%Z)) = 12345678901234566%Z
  /\ toFixed2 (NewOperation.nominalValue opData_large_3) = 12345678901234567%Z
  /\ Qsum (values opData_large_3 3%Z) + (1 # 100)
     < NewOperation.nominalValue opData_large_3.
Proof.
  repeat split; vm_compute; reflexivity.
Qed.

(** C5, amended.  For a nominal value that is a whole number [c] of
    cents, from 0 to ten to the thirteenth cents (a hundred billion),
    and a count of 2 to 60, the handler requests the insertion of
    [count] drafts; each has the nominal value
    [round2(nominalValue / count)], and the last one that value plus
    [round2(nominalValue - perInstallment * count)], all computed in
    doubles.  Written with two decimals the drafts are [p] cents each
    and [p + d] cents the last, with [p * count + d = c]: to two
    decimals they sum to the nominal value exactly, and so does their
    exact sum. *)
Theorem installments_conserve_nominal
        (addMonths : Date -> Z -> Date) (toISODate : Date -> IsoDate)
        (db : Supabase.t) (s : State) (opData : NewOperation.t) (count c : Z) :
  NewOperation.type opData = parcelamento ->
  NewOperation.installments opData = Some count ->
  (2 <= count <= 60)%Z ->
  NewOperation.nominalValue opData == inject_Z c / 100 ->
  (0 <= c <= 10 ^ 13)%Z ->
  let drafts := bulkOperations addMonths toISODate opData count in
  let values := map OperationPayload.nominal_value drafts in
  let nominalValue := Float64.number (NewOperation.nominalValue opData) in
  let perInstallment :=
    round2 (Float64.div nominalValue (Float64.number (inject_Z count))) in
  let residual :=
    round2 (Float64.sub nominalValue
                        (Float64.mul perInstallment (Float64.number (inject_Z count)))) in
  calls (snd (handleAddOperation addMonths toISODate db opData s))
    = calls s ++ [OperationsInsert drafts]
  /\ List.length drafts = Z.to_nat count
  /\ values
     = map (fun i => if (Z.of_nat i =? count - 1)%Z
                     then Float64.amount (Float64.add perInstallment residual)
                     else Float64.amount perInstallment)
           (seq 0 (Z.to_nat count))
  /\ exists p d : Z,
       map toFixed2 values
       = map (fun i => if (Z.of_nat i =? count - 1)%Z then (p + d)%Z else p)
             (seq 0 (Z.to_nat count))
       /\ (p * count + d = c)%Z
       /\ toFixed2 (Qsum values) = c.
Proof.
  intros Ht Hi Hc HN Hcents drafts values nominalValue perInstallment residual.
  split; [|split; [|split]].
  - unfold handleAddOperation.
    rewrite (installmentCount_engaged opData count Ht Hi) by lia.
    unfold tryCatch, bind, request, orThrow, ret, throw, setOperations,
      addNotification. simpl.
    destruct (operations_insert db _); reflexivity.
  - subst drafts. unfold bulkOperations. rewrite length_map, length_seq. reflexivity.
  - subst values drafts. apply bulkOperations_values.
  - destruct (bulkOperations_cents addMonths toISODate opData c count Hcents Hc HN)
      as (p & d & _ & Hpd & _ & Hmap & Hsum).
    exists p, d. split; [exact Hmap|]. split; [exact Hpd|exact Hsum].
Qed.

(** *** Runs of the handlers *)

(** A load of two open operations, one due ten days ago and one due
    today. *)
Lemma fetchData_overdue_witness :
  Forall (fun op => ~ (Operation.status op = aberto
                       /\ (Operation.dueDate op < DateFns.dayOf clock_day_100)%Z))
         (operations (snd (fetchData (db_with [row_500 aberto 90; row_500 aberto 100])
                                     clock_day_100 (state_of [] [])))).
Proof.
  apply (fetchData_overdue (db_with [row_500 aberto 90; row_500 aberto 100])
                           clock_day_100 (state_of [] []) []
                           [row_500 aberto 90; row_500 aberto 100]);
    reflexivity.
Defined.


(** An overdue operation whose principal is fully paid, extended to
    day 200: it is open again. *)
Lemma handleAddReceipt_extension_witness :
  operations (snd (handleAddReceipt db_ok new_extension
                                    (state_of [op_500 atrasado] [receipt_500])))
  = [Operation.with_dueDate_status (op_500 atrasado) 200 aberto].
Proof.
  apply (handleAddReceipt_extension
           db_ok (state_of [op_500 atrasado] [receipt_500]) new_extension
           (Recebimento.mk 100 1 99 0 0 0 "pix" EmptyString) (op_500 atrasado) 200);
    reflexivity.
Defined.


(** No receipt has id 42. *)
Lemma handleDeleteReceipt_unknown_witness :
  handleDeleteReceipt db_ok clock_day_100 42 (state_of [op_500 pago] [receipt_500])
  = (Returned tt, state_of [op_500 pago] [receipt_500]).
Proof.
  apply handleDeleteReceipt_unknown.
  intros r [<-|[]]. simpl. discriminate.
Defined.

(** Seen on day 85, the open operation due on day 90 has a reminder. *)
Lemma activeReminders_open_only_witness :
  In (reminderOf (op_500 aberto))
     (activeReminders (DateFns.parseISO 85) [] [op_due_103; op_500 aberto]).
Proof.
  apply (activeReminders_open_only (DateFns.parseISO 85) []
                                   [op_due_103; op_500 aberto]).
  exists (op_500 aberto). repeat split.
  - right. left. reflexivity.
  - intros [].
  - vm_compute. discriminate.
  - vm_compute. discriminate.
Defined.

(** 100.00 in three installments: 33.33, 33.33 and 33.34. *)
Lemma installments_conserve_nominal_witness :
  toFixed2 (Qsum (map OperationPayload.nominal_value
                      (bulkOperations addMonths30 DateFns.dayOf opData_100_3 3)))
  = 10000%Z.
Proof.
  destruct (installments_conserve_nominal addMonths30 DateFns.dayOf db_ok
                                          (state_of [] []) opData_100_3 3 10000)
    as (_ & _ & _ & p & d & _ & _ & H).
  - reflexivity.
  - reflexivity.
  - lia.
  - vm_compute. reflexivity.
  - lia.
  - exact H.
Defined.
End AppFacts.

(** * Further properties *)

(** ** Receipts and status: failures, frames and round trips *)

Module ReceiptFacts.
Import Supabase App AppSpec RestSpec.

Ltac run :=
  unfold handleAddReceipt, handleDeleteReceipt, handleUpdateOperationStatus,
    tryCatch, bind, request, orThrow, ret, throw,
    setOperations, setReceipts, addNotification;
  simpl.

Lemma sameTitle_refl (op : Operation.t) : sameTitle op op.
Proof. repeat split. Qed.

Lemma Forall2_refl {A} (R : A -> A -> Prop) (l : list A) :
  (forall x, R x x) -> Forall2 R l l.
Proof. intro H. induction l; constructor; auto. Qed.

Lemma Forall2_updateById (R : Operation.t -> Operation.t -> Prop)
      (id : Z) (f : Operation.t -> Operation.t) (l : list Operation.t) :
  (forall x, R x x) -> (forall x, R x (f x)) -> Forall2 R l (updateById id f l).
Proof.
  intros Hr Hf. unfold updateById.
  induction l as [|o l IH]; simpl; constructor; auto.
  destruct (Operation.id o =? id)%Z; auto.
Qed.

(** X1. When the store refuses the update, [handleUpdateOperationStatus]
    returns normally, leaves clients, operations and receipts as they
    were and shows one error notification. *)
Theorem handleUpdateOperationStatus_refused (db : Supabase.t) (s : State)
        (operationId : Z) (status : OperationStatus) (message : string) :
  operations_update db (mkPatch None (Some status)) operationId = Err message ->
  handleUpdateOperationStatus db operationId status s
  = (Returned tt,
     mkState (clients s) (operations s) (receipts s) (isLoading s)
             (calls s ++ [OperationsUpdate (mkPatch None (Some status)) operationId])
             (notifications s
              ++ [(("Erro ao atualizar status: " ++ message)%string, error)])).
Proof.
  intro H. run. rewrite H. reflexivity.
Qed.

Lemma handleUpdateOperationStatus_refused_witness :
  operations (snd (handleUpdateOperationStatus db_update_fails 1 pago
                     (state_of [op_500 aberto] [receipt_500])))
  = [op_500 aberto].
Proof.
  rewrite (handleUpdateOperationStatus_refused db_update_fails _ 1 pago "offline");
    reflexivity.
Defined.

(** X2. Whatever the store answers, [handleAddReceipt] keeps the list
    of operations in place: the same operations in the same order, each
    with its id, client, title, nominal value, net value, issue date,
    rate and notes; only due date and status can differ.  Clients are
    untouched and no receipt is lost. *)
Theorem handleAddReceipt_frame (db : Supabase.t) (s : State)
        (receiptData : NewRecebimento.t) :
  let s' := snd (handleAddReceipt db receiptData s) in
  Forall2 sameTitle (operations s) (operations s')
  /\ clients s' = clients s
  /\ (receipts s' = receipts s
      \/ exists data, receipts s' = data :: receipts s).
Proof.
  run.
  destruct (receipts_insert db _) as [data|m]; simpl.
  2:{ repeat split; [apply Forall2_refl, sameTitle_refl|now left]. }
  destruct (find _ (operations s)) as [operation|]; simpl.
  2:{ repeat split; [apply Forall2_refl, sameTitle_refl|right; eauto]. }
  destruct (NewRecebimento.newDueDate receiptData) as [d|]; simpl.
  - destruct (operations_update db _ _); simpl;
      (repeat split; [|right; eauto]).
    + apply (Forall2_updateById sameTitle (Operation.id operation));
        [apply sameTitle_refl|intro; repeat split].
    + apply Forall2_refl, sameTitle_refl.
  - destruct (Float64.ge _ _); simpl.
    + destruct (operations_update db _ _); simpl;
        (repeat split; [|right; eauto]).
      * apply (Forall2_updateById sameTitle (Operation.id operation));
          [apply sameTitle_refl|intro; repeat split].
      * apply Forall2_refl, sameTitle_refl.
    + repeat split; [apply Forall2_refl, sameTitle_refl|right; eauto].
Qed.

(** X3. When the store refuses the receipt, nothing is recorded:
    receipts and operations are as they were, the insert is the only
    request sent and one error notification is shown. *)
Theorem handleAddReceipt_insert_refused (db : Supabase.t) (s : State)
        (receiptData : NewRecebimento.t) (message : string) :
  receipts_insert db (receiptPayload receiptData) = Err message ->
  handleAddReceipt db receiptData s
  = (Returned tt,
     mkState (clients s) (operations s) (receipts s) (isLoading s)
             (calls s ++ [ReceiptsInsert (receiptPayload receiptData)])
             (notifications s
              ++ [(("Erro ao registrar recebimento: " ++ message)%string, error)])).
Proof.
  intro H. run. rewrite H. reflexivity.
Qed.

Lemma handleAddReceipt_insert_refused_witness :
  receipts (snd (handleAddReceipt db_fails new_200
                                  (state_of [op_500 aberto] [receipt_300])))
  = [receipt_300].
Proof.
  rewrite (handleAddReceipt_insert_refused db_fails _ new_200 "offline");
    reflexivity.
Defined.

(** X4. A date extension is not atomic: when the receipt is stored and
    the update of the operation is refused, the receipt stays in the
    state while the operation keeps its due date and status, and an
    error notification is shown. *)
Theorem handleAddReceipt_extension_refused (db : Supabase.t) (s : State)
        (receiptData : NewRecebimento.t) (data : Recebimento.t)
        (operation : Operation.t) (newDueDate : IsoDate) (message : string) :
  NewRecebimento.newDueDate receiptData = Some newDueDate ->
  receipts_insert db (receiptPayload receiptData) = Ok data ->
  find (fun op => (Operation.id op =? NewRecebimento.operationId receiptData)%Z)
       (operations s) = Some operation ->
  operations_update db (mkPatch (Some newDueDate) (Some aberto))
                    (Operation.id operation) = Err message ->
  let s' := snd (handleAddReceipt db receiptData s) in
  receipts s' = data :: receipts s
  /\ operations s' = operations s
  /\ notifications s'
     = notifications s
       ++ [(("Erro ao registrar recebimento: " ++ message)%string, error)].
Proof.
  intros Hnew Hins Hfind Hupd. run.
  rewrite Hins. simpl. rewrite Hfind, Hnew. simpl. rewrite Hupd. simpl.
  destruct data; repeat split.
Qed.

Lemma handleAddReceipt_extension_refused_witness :
  operations (snd (handleAddReceipt db_update_fails new_extension
                                    (state_of [op_500 atrasado] [])))
  = [op_500 atrasado].
Proof.
  apply (handleAddReceipt_extension_refused
           db_update_fails (state_of [op_500 atrasado] []) new_extension
           (Recebimento.mk 100 1 99 0 0 0 "pix" EmptyString) (op_500 atrasado) 200
           "offline");
    reflexivity.
Defined.

(** X5. A receipt for an operation that is not in the state is recorded
    all the same: it is added to the receipts, the operations are
    untouched, and the insert is the only request sent. *)
Theorem handleAddReceipt_unknown_operation (db : Supabase.t) (s : State)
        (receiptData : NewRecebimento.t) (data : Recebimento.t) :
  receipts_insert db (receiptPayload receiptData) = Ok data ->
  (forall op, In op (operations s) ->
              Operation.id op <> NewRecebimento.operationId receiptData) ->
  handleAddReceipt db receiptData s
  = (Returned tt,
     mkState (clients s) (operations s) (data :: receipts s) (isLoading s)
             (calls s ++ [ReceiptsInsert (receiptPayload receiptData)])
             (notifications s)).
Proof.
  intros Hins Hno. run. rewrite Hins. simpl.
  replace (find _ (operations s)) with (@None Operation.t).
  - destruct data; reflexivity.
  - symmetry. apply AppFacts.find_none_iff. intros op Hop.
    apply Z.eqb_neq. now apply Hno.
Qed.

Lemma handleAddReceipt_unknown_operation_witness :
  receipts (snd (handleAddReceipt db_ok new_200 (state_of [] [])))
  = [Recebimento.mk 100 1 99 200 200 0 "pix" EmptyString].
Proof.
  rewrite (handleAddReceipt_unknown_operation
             db_ok (state_of [] []) new_200
             (Recebimento.mk 100 1 99 200 200 0 "pix" EmptyString)).
  - reflexivity.
  - reflexivity.
  - intros op [].
Defined.

(** X6. Whatever the store answers, [handleDeleteReceipt] never adds a
    receipt and removes none but those with the given id, and keeps
    every operation in place with all its fields, due date included,
    except possibly the status. *)
Theorem handleDeleteReceipt_frame (db : Supabase.t) (now : Date) (s : State)
        (receiptId : Z) :
  let s' := snd (handleDeleteReceipt db now receiptId s) in
  Forall2 (fun a b => sameTitle a b /\ Operation.dueDate a = Operation.dueDate b)
          (operations s) (operations s')
  /\ (receipts s' = receipts s
      \/ receipts s'
         = filter (fun r => negb (Recebimento.id r =? receiptId)%Z) (receipts s))
  /\ clients s' = clients s.
Proof.
  set (R := fun a b => sameTitle a b /\ Operation.dueDate a = Operation.dueDate b).
  assert (Hr : forall x, R x x) by (intro; split; [apply sameTitle_refl|reflexivity]).
  run.
  destruct (find _ (receipts s)) as [receiptToDelete|]; simpl.
  2:{ repeat split; [apply Forall2_refl, Hr|now left]. }
  destruct (receipts_delete db receiptId); simpl.
  2:{ repeat split; [apply Forall2_refl, Hr|now left]. }
  destruct (find _ (operations s)) as [operation|]; simpl.
  2:{ repeat split; [apply Forall2_refl, Hr|now right]. }
  destruct (OperationStatus_eqb _ pago); simpl.
  2:{ repeat split; [apply Forall2_refl, Hr|now right]. }
  destruct (Float64.lt _ _); simpl.
  2:{ repeat split; [apply Forall2_refl, Hr|now right]. }
  destruct (operations_update db _ _); simpl;
    (repeat split; [|now right]).
  - apply (Forall2_updateById R (Operation.id operation)); [exact Hr|].
    intro x. split; [repeat split|reflexivity].
  - apply Forall2_refl, Hr.
Qed.

(** X7. When the store refuses to delete a receipt, the receipt stays:
    receipts and operations are as they were and one error notification
    is shown. *)
Theorem handleDeleteReceipt_refused (db : Supabase.t) (now : Date) (s : State)
        (receiptId : Z) (receiptToDelete : Recebimento.t) (message : string) :
  find (fun r => (Recebimento.id r =? receiptId)%Z) (receipts s)
    = Some receiptToDelete ->
  receipts_delete db receiptId = Err message ->
  handleDeleteReceipt db now receiptId s
  = (Returned tt,
     mkState (clients s) (operations s) (receipts s) (isLoading s)
             (calls s ++ [ReceiptsDelete receiptId])
             (notifications s
              ++ [(("Erro ao excluir recebimento: " ++ message)%string, error)])).
Proof.
  intros Hfind Hdel. run. rewrite Hfind. simpl. rewrite Hdel. reflexivity.
Qed.

Lemma handleDeleteReceipt_refused_witness :
  receipts (snd (handleDeleteReceipt db_fails clock_day_100 11
                                     (state_of [op_500 pago] [receipt_500])))
  = [receipt_500].
Proof.
  rewrite (handleDeleteReceipt_refused db_fails clock_day_100 _ 11 receipt_500 "offline");
    reflexivity.
Defined.

Lemma updateById_twice (id : Z) (f g : Operation.t -> Operation.t)
      (l : list Operation.t) :
  (forall o, Operation.id (f o) = Operation.id o) ->
  updateById id g (updateById id f l) = updateById id (fun o => g (f o)) l.
Proof.
  intro Hf. unfold updateById. rewrite map_map. apply map_ext. intro o.
  destruct (Operation.id o =? id)%Z eqn:E.
  - rewrite Hf, E. reflexivity.
  - rewrite E. reflexivity.
Qed.

Lemma filter_fresh (receiptId : Z) (l : list Recebimento.t) :
  (forall r, In r l -> Recebimento.id r <> receiptId) ->
  filter (fun r => negb (Recebimento.id r =? receiptId)%Z) l = l.
Proof.
  intro H. induction l as [|r l IH]; simpl; [reflexivity|].
  replace (Recebimento.id r =? receiptId)%Z with false
    by (symmetry; apply Z.eqb_neq; apply H; now left).
  simpl. f_equal. apply IH. intros x Hx. apply H. now right.
Qed.

(** What [handleAddReceipt] does when a settlement receipt completes
    the principal and the store accepts both requests. *)
Lemma handleAddReceipt_pays (db : Supabase.t) (s : State)
      (receiptData : NewRecebimento.t) (data : Recebimento.t)
      (operation : Operation.t) :
  NewRecebimento.newDueDate receiptData = None ->
  receipts_insert db (receiptPayload receiptData) = Ok data ->
  find (fun op => (Operation.id op =? NewRecebimento.operationId receiptData)%Z)
       (operations s) = Some operation ->
  Float64.ge
    (spec_doubleSum
       (map Recebimento.valor_principal_pago
            (filter (fun r => (Recebimento.operationId r
                               =? NewRecebimento.operationId receiptData)%Z)
                    (receipts s))
        ++ [NewRecebimento.valor_principal_pago receiptData]))
    (Float64.number (Operation.nominalValue operation)) = true ->
  operations_update db (mkPatch None (Some pago)) (Operation.id operation) = Ok tt ->
  snd (handleAddReceipt db receiptData s)
  = mkState (clients s)
            (updateById (Operation.id operation)
                        (fun op => Operation.with_status op pago) (operations s))
            (data :: receipts s) (isLoading s)
            (calls s ++ [ReceiptsInsert (receiptPayload receiptData);
                         OperationsUpdate (mkPatch None (Some pago))
                                          (Operation.id operation)])
            (notifications s).
Proof.
  intros Hnew Hins Hfind Hge Hupd. run.
  rewrite Hins. simpl. rewrite Hfind, Hnew. simpl.
  rewrite AppFacts.doubleSum_snoc, <- AppFacts.reduce_doubleSum in Hge.
  rewrite Hge. simpl.
  rewrite Hupd. simpl. rewrite <- app_assoc. destruct data; reflexivity.
Qed.

(** X8. Paying an operation off and taking the payment back.  An
    operation whose principal, as the program totals it in doubles, was
    below the nominal value receives a settlement receipt with which
    the total reaches it, and that receipt, which the store gave a
    fresh id, is then deleted: the receipts are back as they were and
    the operation ends [atrasado] when its due date is strictly before
    today and [aberto] otherwise, whatever its status was before the
    payment. *)
Theorem pay_then_reverse (db : Supabase.t) (now : Date) (s : State)
        (receiptData : NewRecebimento.t) (data : Recebimento.t)
        (operation : Operation.t) :
  NewRecebimento.newDueDate receiptData = None ->
  receipts_insert db (receiptPayload receiptData) = Ok data ->
  Recebimento.operationId data = NewRecebimento.operationId receiptData ->
  (forall r, In r (receipts s) -> Recebimento.id r <> Recebimento.id data) ->
  find (fun op => (Operation.id op =? NewRecebimento.operationId receiptData)%Z)
       (operations s) = Some operation ->
  let earlier :=
    map Recebimento.valor_principal_pago
        (filter (fun r => (Recebimento.operationId r
                           =? NewRecebimento.operationId receiptData)%Z)
                (receipts s)) in
  Float64.lt (spec_doubleSum earlier)
             (Float64.number (Operation.nominalValue operation)) = true ->
  Float64.ge (spec_doubleSum (earlier ++ [NewRecebimento.valor_principal_pago receiptData]))
             (Float64.number (Operation.nominalValue operation)) = true ->
  (forall status,
      operations_update db (mkPatch None (Some status)) (Operation.id operation) = Ok tt) ->
  receipts_delete db (Recebimento.id data) = Ok tt ->
  let paid := snd (handleAddReceipt db receiptData s) in
  let reversed := snd (handleDeleteReceipt db now (Recebimento.id data) paid) in
  receipts reversed = receipts s
  /\ operations reversed
     = updateById (Operation.id operation)
                  (fun op => Operation.with_status op (spec_reversalStatus now operation))
                  (operations s).
Proof.
  intros Hnew Hins Hop Hfresh Hfind earlier Hlt Hge Hupd Hdel paid reversed.
  assert (Hid : Operation.id operation = NewRecebimento.operationId receiptData)
    by (eapply AppFacts.find_id; eassumption).
  assert (Hpaid : paid
                  = mkState (clients s)
                      (updateById (Operation.id operation)
                                  (fun op => Operation.with_status op pago) (operations s))
                      (data :: receipts s) (isLoading s)
                      (calls s ++ [ReceiptsInsert (receiptPayload receiptData);
                                   OperationsUpdate (mkPatch None (Some pago))
                                                    (Operation.id operation)])
                      (notifications s))
    by (apply handleAddReceipt_pays; auto).
  assert (Hfind' : find (fun op => (Operation.id op =? Recebimento.operationId data)%Z)
                        (operations paid)
                   = Some (Operation.with_status operation pago)).
  { rewrite Hpaid, Hop, Hid. simpl.
    apply (AppFacts.find_updateById _ (fun op => Operation.with_status op pago)
                                    _ operation); [reflexivity|exact Hfind]. }
  subst reversed. unfold handleDeleteReceipt.
  assert (Hr : find (fun r => (Recebimento.id r =? Recebimento.id data)%Z) (receipts paid)
               = Some data).
  { rewrite Hpaid. simpl. rewrite Z.eqb_refl. reflexivity. }
  rewrite Hr. cbv zeta. rewrite Hfind'.
  unfold tryCatch, bind, request, orThrow, ret, throw, setReceipts. simpl.
  rewrite Hdel. simpl.
  assert (Hrem : filter (fun r => (Recebimento.operationId r =? Recebimento.operationId data)%Z
                                  && negb (Recebimento.id r =? Recebimento.id data)%Z)
                        (receipts paid)
                 = filter (fun r => (Recebimento.operationId r
                                     =? NewRecebimento.operationId receiptData)%Z)
                          (receipts s)).
  { rewrite Hpaid. simpl. rewrite !Z.eqb_refl. simpl.
    rewrite <- AppFacts.filter_filter, (filter_fresh _ _ Hfresh), Hop. reflexivity. }
  rewrite Hrem, AppFacts.reduce_doubleSum. fold earlier. rewrite Hlt.
  rewrite AppFacts.isOverdue_ltb.
  change (if (Operation.dueDate operation <? DateFns.dayOf now)%Z then atrasado else aberto)
    with (spec_reversalStatus now operation).
  unfold handleUpdateOperationStatus, tryCatch, bind, request, orThrow, ret, throw,
    setOperations. simpl.
  rewrite Hupd. simpl. rewrite Hpaid. simpl. rewrite Z.eqb_refl. simpl. split.
  - apply filter_fresh. exact Hfresh.
  - apply updateById_twice. reflexivity.
Qed.

Lemma pay_then_reverse_witness :
  operations (snd (handleDeleteReceipt db_ok clock_day_100 100
                     (snd (handleAddReceipt db_ok new_200
                             (state_of [op_500 aberto] [receipt_300])))))
  = [op_500 atrasado].
Proof.
  apply (pay_then_reverse db_ok clock_day_100 (state_of [op_500 aberto] [receipt_300])
                          new_200 (Recebimento.mk 100 1 99 200 200 0 "pix" EmptyString)
                          (op_500 aberto)).
  - reflexivity.
  - reflexivity.
  - reflexivity.
  - intros r [<-|[]]. simpl. discriminate.
  - reflexivity.
  - vm_compute. reflexivity.
  - vm_compute. reflexivity.
  - reflexivity.
  - reflexivity.
Defined.
End ReceiptFacts.

(** ** Cascading deletes, users and dismissed reminders *)

Module CascadeFacts.
Import Supabase App AppSpec RestSpec AppRest.

Ltac run :=
  unfold handleDeleteOperation, handleDeleteClient,
    tryCatch, bind, answered, orThrow, ret, throw,
    setOperations, setReceipts, setClients, addNotification;
  simpl.

(** X9. Deleting an operation removes it and its receipts and nothing
    else: afterwards the operations are those with another id and the
    receipts those of another operation, so no receipt refers to the
    deleted id; when the store refuses, operations and receipts are as
    they were and an error notification is shown. *)
Theorem handleDeleteOperation_cascade (db : Deletes) (s : State) (operationId : Z) :
  let s' := snd (handleDeleteOperation db operationId s) in
  match operations_delete db operationId with
  | Ok _ =>
      (forall op, In op (operations s') <->
                  In op (operations s) /\ Operation.id op <> operationId)
      /\ (forall r, In r (receipts s') <->
                    In r (receipts s) /\ Recebimento.operationId r <> operationId)
      /\ notifications s' = notifications s
  | Err message =>
      operations s' = operations s
      /\ receipts s' = receipts s
      /\ notifications s'
         = notifications s
           ++ [(("Erro ao excluir operação: " ++ message)%string, error)]
  end.
Proof.
  run. destruct (operations_delete db operationId); simpl.
  - split; [|split; [|reflexivity]].
    + intro op. rewrite filter_In, negb_true_iff, Z.eqb_neq. reflexivity.
    + intro r. rewrite filter_In, negb_true_iff, Z.eqb_neq. reflexivity.
  - repeat split.
Qed.

Lemma handleDeleteOperation_cascade_witness :
  ~ In receipt_300
       (receipts (snd (handleDeleteOperation deletes_ok 1
                         (state_of [op_500 aberto] [receipt_300])))).
Proof.
  pose proof (handleDeleteOperation_cascade
                deletes_ok (state_of [op_500 aberto] [receipt_300]) 1) as H.
  cbn [deletes_ok operations_delete] in H. destruct H as (_ & H & _).
  intro Hin. apply H in Hin. destruct Hin as [_ Hne]. apply Hne. reflexivity.
Defined.

Lemma clientIdIs_iff (clientId : Z) (op : Operation.t) :
  clientIdIs clientId op = true <-> Operation.clientId op = Some clientId.
Proof.
  unfold clientIdIs. destruct (Operation.clientId op) as [c|].
  - rewrite Z.eqb_eq. split; congruence.
  - split; discriminate.
Qed.

Lemma opsToDelete_iff (clientId : Z) (operations : list Operation.t) (id : Z) :
  includes (map Operation.id (filter (clientIdIs clientId) operations)) id = true
  <-> exists op, In op operations
                 /\ Operation.clientId op = Some clientId
                 /\ Operation.id op = id.
Proof.
  rewrite AppFacts.includes_In, in_map_iff. split.
  - intros (op & E & Hin). apply filter_In in Hin. destruct Hin as [Hin Hc].
    exists op. rewrite <- clientIdIs_iff. auto.
  - intros (op & Hin & Hc & E). exists op. split; [exact E|].
    apply filter_In. rewrite clientIdIs_iff. auto.
Qed.

(** X10. Deleting a client, once the store accepts: the client is gone,
    so are its operations and every receipt whose operation id is the
    id of one of them; the other clients and the operations of other
    clients are all kept, and so is every receipt of an operation id
    the client had no operation with. *)
Theorem handleDeleteClient_cascade (db : Deletes) (s : State) (clientId : Z) :
  clients_delete db clientId = Ok tt ->
  let s' := snd (handleDeleteClient db clientId s) in
  (forall c, In c (clients s') <-> In c (clients s) /\ Client.id c <> clientId)
  /\ (forall op, In op (operations s') <->
                 In op (operations s) /\ Operation.clientId op <> Some clientId)
  /\ (forall r, In r (receipts s') <->
                In r (receipts s)
                /\ ~ exists op, In op (operations s)
                                /\ Operation.clientId op = Some clientId
                                /\ Operation.id op = Recebimento.operationId r).
Proof.
  intro Hdel. run. rewrite Hdel. simpl. split; [|split].
  - intro c. rewrite filter_In, negb_true_iff, Z.eqb_neq. reflexivity.
  - intro op. rewrite filter_In, negb_true_iff, <- clientIdIs_iff.
    destruct (clientIdIs clientId op); split; intros [H1 H2]; split;
      congruence.
  - intro r. rewrite filter_In, negb_true_iff, <- opsToDelete_iff.
    destruct (includes _ _); split; intros [H1 H2]; split; congruence.
Qed.

Lemma handleDeleteClient_cascade_witness :
  ~ In receipt_300
       (receipts (snd (handleDeleteClient deletes_ok 7
                         (state_of [op_500 aberto] [receipt_300; receipt_500])))).
Proof.
  destruct (handleDeleteClient_cascade
              deletes_ok (state_of [op_500 aberto] [receipt_300; receipt_500]) 7
              eq_refl) as (_ & _ & H).
  intro Hin. apply H in Hin. destruct Hin as [_ Hn]. apply Hn.
  exists (op_500 aberto). repeat split. now left.
Defined.

(** X11. Cascading deletes keep receipts attached: when every receipt
    of the state is a receipt of an operation of the state, the same
    holds after [handleDeleteOperation] and after [handleDeleteClient],
    whatever the store answers. *)
Theorem cascades_keep_receipts_attached (db : Deletes) (s : State) (id : Z) :
  receiptsHaveOperations s ->
  receiptsHaveOperations (snd (handleDeleteOperation db id s))
  /\ receiptsHaveOperations (snd (handleDeleteClient db id s)).
Proof.
  intro Hs. split.
  - run. destruct (operations_delete db id); simpl; [|exact Hs].
    intros r Hr. simpl in *.
    apply filter_In in Hr. destruct Hr as [Hr Hne].
    destruct (Hs r Hr) as (op & Hop & E).
    exists op. split; [|exact E].
    apply filter_In. split; [exact Hop|]. rewrite E. exact Hne.
  - run. destruct (clients_delete db id); simpl; [|exact Hs].
    intros r Hr. simpl in *.
    apply filter_In in Hr. destruct Hr as [Hr Hne].
    destruct (Hs r Hr) as (op & Hop & E).
    exists op. split; [|exact E].
    apply filter_In. split; [exact Hop|].
    apply negb_true_iff. apply negb_true_iff in Hne.
    destruct (clientIdIs id op) eqn:C; [|reflexivity].
    rewrite <- Hne. symmetry. apply opsToDelete_iff.
    exists op. rewrite <- clientIdIs_iff. auto.
Qed.

Lemma cascades_keep_receipts_attached_witness :
  receiptsHaveOperations
    (snd (handleDeleteOperation deletes_ok 2
            (state_of [op_500 aberto] [receipt_300]))).
Proof.
  apply (cascades_keep_receipts_attached deletes_ok
           (state_of [op_500 aberto] [receipt_300]) 2).
  intros r [<-|[]]. exists (op_500 aberto). split; [now left|reflexivity].
Defined.

(** X12. Nobody deletes the account they are signed in with: asked to
    delete the current user, [handleDeleteUser] answers [false] and
    leaves the state as it is, whatever the store would have said, so
    the current user is never taken out of the list; when it answers
    [true] the users left are those with another id, and when it
    answers [false] they are all still there. *)
Theorem handleDeleteUser_guard (db : Deletes) (s : UsersState) (userId : Z) :
  let result := handleDeleteUser db userId s in
  (forall u, currentUser s = Some u -> User.id u = userId -> result = (false, s))
  /\ (forall u, currentUser s = Some u -> In u (users s) -> In u (users (snd result)))
  /\ (fst result = true ->
      users (snd result) = filter (fun u => negb (User.id u =? userId)%Z) (users s))
  /\ (fst result = false -> users (snd result) = users s).
Proof.
  unfold handleDeleteUser.
  destruct (currentUser s) as [u|] eqn:Hc.
  - destruct (User.id u =? userId)%Z eqn:E.
    + simpl. repeat split; auto; discriminate.
    + apply Z.eqb_neq in E.
      destruct (users_delete db userId); simpl.
      * split; [|split; [|split]].
        -- intros u' [= <-] Hu. contradiction.
        -- intros u' [= <-] Hu. apply filter_In. split; [exact Hu|].
           apply negb_true_iff. now apply Z.eqb_neq.
        -- reflexivity.
        -- discriminate.
      * split; [|split; [|split]].
        -- intros u' [= <-] Hu. contradiction.
        -- auto.
        -- discriminate.
        -- reflexivity.
  - destruct (users_delete db userId); simpl; repeat split; try discriminate.
Qed.

(** X13. Dismissing a reminder removes the reminders of that operation
    from [activeReminders] and no other: the list after
    [handleDismissReminder] holds the reminders it held before whose id
    is another one. *)
Theorem dismissed_reminder_disappears (now : Date) (dismissed : list Z)
        (operations : list Operation.t) (reminderId : Z) :
  forall r,
    In r (activeReminders now (handleDismissReminder reminderId dismissed) operations)
    <-> In r (activeReminders now dismissed operations) /\ Reminder.id r <> reminderId.
Proof.
  intro r. unfold activeReminders.
  rewrite !(filter_ext _ _ (AppFacts.activeReminders_filter now _)).
  split.
  - intro H. apply (Permutation_in _ (sort_perm _ _)) in H.
    apply in_map_iff in H. destruct H as (op & <- & Hop).
    apply filter_In in Hop. destruct Hop as [Hin Hp].
    unfold spec_remindable, handleDismissReminder, includes in Hp.
    rewrite existsb_app in Hp. simpl in Hp.
    rewrite !andb_true_iff, negb_true_iff, !orb_false_iff in Hp.
    destruct Hp as [[[Hs [Hd [Hne _]]] H1] H2].
    split.
    + apply (Permutation_in _ (Permutation_sym (sort_perm _ _))).
      apply in_map. apply filter_In. split; [exact Hin|].
      unfold spec_remindable, includes.
      rewrite !andb_true_iff, negb_true_iff. auto.
    + simpl. now apply Z.eqb_neq.
  - intros [H Hne]. apply (Permutation_in _ (sort_perm _ _)) in H.
    apply in_map_iff in H. destruct H as (op & <- & Hop).
    apply filter_In in Hop. destruct Hop as [Hin Hp].
    apply (Permutation_in _ (Permutation_sym (sort_perm _ _))).
    apply in_map. apply filter_In. split; [exact Hin|].
    unfold spec_remindable, handleDismissReminder, includes in *.
    rewrite existsb_app. simpl.
    rewrite !andb_true_iff, negb_true_iff in Hp.
    destruct Hp as [[[Hs Hd] H1] H2].
    rewrite !andb_true_iff, negb_true_iff, !orb_false_iff.
    simpl in Hne. apply Z.eqb_neq in Hne. repeat split; assumption.
Qed.

Lemma dismissed_reminder_disappears_witness :
  ~ In (reminderOf (op_500 aberto))
       (activeReminders (DateFns.parseISO 85) (handleDismissReminder 1 [])
                        [op_500 aberto]).
Proof.
  intro H.
  apply (dismissed_reminder_disappears (DateFns.parseISO 85) [] [op_500 aberto] 1) in H.
  destruct H as [_ Hne]. apply Hne. reflexivity.
Defined.

Lemma handleDeleteUser_guard_witness :
  handleDeleteUser deletes_ok 3 signed_in_ana = (false, signed_in_ana).
Proof.
  destruct (handleDeleteUser_guard deletes_ok signed_in_ana 3) as (H & _).
  apply (H user_ana); reflexivity.
Defined.
End CascadeFacts.

(** ** Creating operations *)

Module AddOperationFacts.
Import Supabase App AppSpec RestSpec.

Ltac run :=
  unfold handleAddOperation, tryCatch, bind, request, orThrow, ret, throw,
    setOperations, addNotification;
  simpl.




(** X15. A plan is all or nothing in the state: when the store refuses
    the batch, no operation is added and one error notification is
    shown; when it accepts, the operations that were there are all
    still there, in their order, after the new ones. *)
Theorem handleAddOperation_batch (addMonths : Date -> Z -> Date)
        (toISODate : Date -> IsoDate) (db : Supabase.t) (s : State)
        (opData : NewOperation.t) (count : Z) :
  installmentCount opData = Some count ->
  let s' := snd (handleAddOperation addMonths toISODate db opData s) in
  match operations_insert db (bulkOperations addMonths toISODate opData count) with
  | Err message =>
      operations s' = operations s
      /\ notifications s'
         = notifications s
           ++ [(("Erro ao registrar parcelamento: " ++ message)%string, error)]
  | Ok data =>
      exists newOps,
        operations s' = newOps ++ operations s
        /\ Permutation newOps
             (map (mapInsertedRow
                     (find (fun c => (Client.id c =? NewOperation.clientId opData)%Z)
                           (clients s)))
                  data)
  end.
Proof.
  intro Hc. unfold handleAddOperation. rewrite Hc. run.
  destruct (operations_insert db _) as [data|message]; simpl.
  - eexists. split; [reflexivity|]. apply sort_perm.
  - split; reflexivity.
Qed.

Lemma handleAddOperation_batch_witness :
  operations (snd (handleAddOperation addMonths30 DateFns.dayOf db_fails opData_100_3
                                      (state_of [op_500 aberto] [])))
  = [op_500 aberto].
Proof.
  pose proof (handleAddOperation_batch addMonths30 DateFns.dayOf db_fails
                (state_of [op_500 aberto] []) opData_100_3 3 eq_refl) as H.
  simpl in H. apply H.
Defined.

(** X17. The last installment stays close to the others: for a nominal
    value that is a whole number of cents, up to ten to the thirteenth
    cents, split in 2 to 60 installments, the drafts written with two
    decimals are all alike but the last, and the residual the last one
    absorbs is at most half a cent per installment in magnitude. *)
Theorem installments_residual_bound (addMonths : Date -> Z -> Date)
        (toISODate : Date -> IsoDate) (opData : NewOperation.t) (count c : Z) :
  (2 <= count <= 60)%Z ->
  NewOperation.nominalValue opData == inject_Z c / 100 ->
  (0 <= c <= 10 ^ 13)%Z ->
  let values :=
    map OperationPayload.nominal_value
        (bulkOperations addMonths toISODate opData count) in
  exists p d : Z,
    map toFixed2 values
    = map (fun i => if (Z.of_nat i =? count - 1)%Z then (p + d)%Z else p)
          (seq 0 (Z.to_nat count))
    /\ (2 * Z.abs d <= count)%Z.
Proof.
  intros Hk HN Hc values.
  destruct (AppFacts.bulkOperations_cents addMonths toISODate opData c count Hc Hk HN)
    as (p & d & _ & _ & Hd & Hmap & _).
  exists p, d. split; [exact Hmap|exact Hd].
Qed.

Lemma installments_residual_bound_witness :
  exists p d : Z,
    map toFixed2 (map OperationPayload.nominal_value
                      (bulkOperations addMonths30 DateFns.dayOf opData_100_3 3))
    = map (fun i => if (Z.of_nat i =? 3 - 1)%Z then (p + d)%Z else p) (seq 0 3)
    /\ (2 * Z.abs d <= 3)%Z.
Proof.
  apply (installments_residual_bound addMonths30 DateFns.dayOf opData_100_3 3 10000).
  - lia.
  - vm_compute. reflexivity.
  - lia.
Defined.
End AddOperationFacts.

(** ** Amounts typed into the form *)

Module UtilsFacts.
Import Utils AppSpec.

Lemma digitValue_range (c : ascii) :
  isDigit c = true -> (0 <= digitValue c <= 9)%Z.
Proof.
  unfold isDigit, digitValue. rewrite andb_true_iff, !Nat.leb_le. lia.
Qed.

Lemma numberFrom_onlyDigits_nonneg (value : string) (acc : Z) :
  (0 <= acc)%Z -> (0 <= numberFrom acc (onlyDigits value))%Z.
Proof.
  revert acc; induction value as [|c v IH]; intros acc Ha; simpl; [exact Ha|].
  destruct (isDigit c) eqn:E; simpl; [|now apply IH].
  apply IH. pose proof (digitValue_range c E). lia.
Qed.

(** An amount typed into the form is never negative. *)
Lemma parseCurrencyInput_nonneg (value : string) : 0 <= parseCurrencyInput value.
Proof.
  unfold parseCurrencyInput. destruct (String.eqb _ _); [lra|].
  assert (H : (0 <= numberFrom 0 (onlyDigits value))%Z)
    by (apply numberFrom_onlyDigits_nonneg; lia).
  rewrite Zle_Qle in H. change (inject_Z 0) with 0 in H.
  assert (H100 : Float64.number 100 = Float64.Finite 100) by (vm_compute; reflexivity).
  rewrite H100.
  destruct (Number (onlyDigits value)) as [q|negative|] eqn:EN.
  - assert (Hq : 0 <= q).
    { unfold Number, Float64.number, Float64.round in EN.
      destruct (Qle_bool _ _); [discriminate|].
      injection EN as <-. apply Float64Facts.roundFinite_nonneg. exact H. }
    unfold Float64.div. change (Qeq_bool 100 0) with false. cbv iota.
    apply Float64Facts.amount_round_nonneg.
    unfold Qdiv. change (/ 100) with (1 # 100). lra.
  - unfold Float64.div. cbn [Float64.amount]. lra.
  - unfold Float64.div. cbn [Float64.amount]. lra.
Qed.
End UtilsFacts.

(** ** Loading *)

Module FetchFacts.
Import Supabase App AppSpec RestSpec.

Lemma StronglySorted_map {A B} (R : A -> A -> Prop) (R' : B -> B -> Prop)
      (f : A -> B) (l : list A) :
  (forall a b, R a b -> R' (f a) (f b)) ->
  StronglySorted R l -> StronglySorted R' (map f l).
Proof.
  intros H. induction 1 as [|a l Hl IH Ha]; simpl; constructor.
  - exact IH.
  - apply Forall_forall. intros b Hb. apply in_map_iff in Hb.
    destruct Hb as (x & <- & Hx). apply H.
    rewrite Forall_forall in Ha. now apply Ha.
Qed.

Lemma sort_byIdDesc {A} (id : A -> Z) (l : list A) :
  StronglySorted (fun a b => (id b <= id a)%Z) (sort (byIdDesc id) l).
Proof.
  apply sort_sorted; unfold byIdDesc; intros; lia.
Qed.

Lemma autoUpdateOverdue_id (now : Date) (op : Operation.t) :
  Operation.id (autoUpdateOverdue now op) = Operation.id op.
Proof.
  unfold autoUpdateOverdue.
  destruct (OperationStatus_eqb _ _); [|reflexivity].
  destruct (isOverdue _ _); reflexivity.
Qed.

(** X20. A load always ends with [isLoading] off.  When the query of
    users or of clients fails, the clients, operations and receipts
    held before are kept and the error is shown (the list of users,
    which the modelled state does not hold, has been replaced by then
    when it is the query of clients that fails); when the query of
    operations fails, operations and receipts are the ones held before;
    when only the query of receipts fails, the receipts held before
    stay beside the operations just loaded. *)
Theorem fetchData_failures (db : Supabase.t) (now : Date) (s : State) :
  let s' := snd (fetchData db now s) in
  isLoading s' = false
  /\ (forall message,
        users_select db = Err message \/ clients_select db = Err message ->
        clients s' = clients s /\ operations s' = operations s
        /\ receipts s' = receipts s
        /\ notifications s'
           = notifications s ++ [("Erro ao carregar dados do sistema."%string, error)])
  /\ (forall message,
        operations_select db = Err message ->
        operations s' = operations s /\ receipts s' = receipts s)
  /\ (forall message opsData,
        users_select db = Ok tt ->
        (exists clientsData, clients_select db = Ok clientsData) ->
        operations_select db = Ok opsData ->
        receipts_select db = Err message ->
        operations s' = updatedOps now opsData /\ receipts s' = receipts s).
Proof.
  unfold fetchData, tryFinally, tryCatch, bind, request, orThrow, ret, throw,
    setIsLoading, setClients, setOperations, setReceipts, addNotification,
    withIsLoading.
  simpl.
  destruct (users_select db) as [[]|mu]; simpl;
    destruct (clients_select db) as [cs|mc]; simpl;
    destruct (operations_select db) as [ops|mo]; simpl;
    destruct (receipts_select db) as [rs|mr]; simpl;
    repeat match goal with |- _ /\ _ => split end;
    intros;
    repeat match goal with
           | H : _ \/ _ |- _ => destruct H
           | H : exists _, _ |- _ => destruct H
           end;
    try discriminate;
    repeat match goal with |- _ /\ _ => split end;
    congruence.
Qed.

Lemma fetchData_failures_witness :
  operations (snd (fetchData db_fails clock_day_100 (state_of [op_500 aberto] [])))
  = [op_500 aberto].
Proof.
  destruct (fetchData_failures db_fails clock_day_100 (state_of [op_500 aberto] []))
    as (_ & _ & H & _).
  apply (H "offline"%string). reflexivity.
Defined.

(** X21. What a successful load shows is newest first: operations and
    receipts stand in descending order of id. *)
Theorem fetchData_newest_first (db : Supabase.t) (now : Date) (s : State)
        (clientsData : list Client.t) (opsData : list OperationRow.t)
        (receiptsData : list Recebimento.t) :
  users_select db = Ok tt ->
  clients_select db = Ok clientsData ->
  operations_select db = Ok opsData ->
  receipts_select db = Ok receiptsData ->
  let s' := snd (fetchData db now s) in
  StronglySorted (fun a b => (Operation.id b <= Operation.id a)%Z) (operations s')
  /\ StronglySorted (fun a b => (Recebimento.id b <= Recebimento.id a)%Z) (receipts s')
  /\ StronglySorted (fun a b => (Client.id b <= Client.id a)%Z) (clients s')
  /\ Permutation (receipts s') receiptsData.
Proof.
  intros Hu Hc Ho Hr.
  unfold fetchData, tryFinally, tryCatch, bind, request, orThrow, ret, throw,
    setIsLoading, setClients, setOperations, setReceipts, addNotification,
    withIsLoading.
  simpl. rewrite Hu, Hc, Ho, Hr. simpl. split; [|split; [|split]].
  - unfold updatedOps, mappedOps.
    apply (StronglySorted_map (fun a b => (Operation.id b <= Operation.id a)%Z)).
    + intros a b. rewrite !autoUpdateOverdue_id. auto.
    + apply sort_byIdDesc.
  - apply sort_byIdDesc.
  - apply sort_byIdDesc.
  - rewrite sort_perm. rewrite (map_ext _ _ AppFacts.mapReceiptRow_id), map_id.
    reflexivity.
Qed.

Lemma fetchData_newest_first_witness :
  StronglySorted (fun a b => (Operation.id b <= Operation.id a)%Z)
    (operations (snd (fetchData (db_with [row_500 aberto 90; row_500 pago 100])
                                clock_day_100 (state_of [] [])))).
Proof.
  apply (fetchData_newest_first (db_with [row_500 aberto 90; row_500 pago 100])
                                clock_day_100 (state_of [] []) []
                                [row_500 aberto 90; row_500 pago 100] []);
    reflexivity.
Defined.
End FetchFacts.

(** ** The figures and lists of [Dashboard] *)

Module DashboardRestFacts.
Import Operation Dashboard DashboardSpec DashboardRest AppSpec RestSpec.

Lemma Qsum_map_le {A} (f g : A -> Q) (l : list A) :
  (forall x, In x l -> f x <= g x) -> Qsum (map f l) <= Qsum (map g l).
Proof.
  induction l as [|x l IH]; intro H; simpl.
  - lra.
  - pose proof (H x (or_introl eq_refl)).
    assert (Qsum (map f l) <= Qsum (map g l))
      by (apply IH; intros y Hy; apply H; now right).
    lra.
Qed.

Lemma Qmax_0_le (x y : Q) : x <= y -> Qmax 0 x <= Qmax 0 y.
Proof.
  intro H.
  destruct (Q.max_spec 0 x) as [[? ->]|[? ->]];
    destruct (Q.max_spec 0 y) as [[? ->]|[? ->]]; lra.
Qed.

Lemma delinquent_bounds (receipts : list Recebimento.t) (op : Operation.t) :
  0 <= delinquent receipts op <= currentDebt receipts op.
Proof.
  pose proof (DashboardFacts.remainingPrincipal_nonneg receipts op).
  pose proof (DashboardFacts.remainingInterest_nonneg receipts op).
  unfold delinquent, currentDebt.
  destruct (OperationStatus_eqb (status op) atrasado); lra.
Qed.

(** X22. The four figures are never negative, and they are ordered:
    what is overdue is part of what is to be received, and so is the
    capital still out. *)
Theorem stats_bounds (operations : list Operation.t) (receipts : list Recebimento.t) :
  let r := stats operations receipts in
  0 <= activeCapital r
  /\ 0 <= interestToReceive r
  /\ 0 <= delinquencyValue r
  /\ delinquencyValue r <= totalReceivables r
  /\ activeCapital r <= totalReceivables r.
Proof.
  destruct (DashboardFacts.stats_sums operations receipts) as (H1 & H2 & H3 & H4).
  simpl in *. rewrite H1, H2, H3, H4.
  split; [|split; [|split; [|split]]].
  - apply Qsum_nonneg. apply Forall_forall. intros x Hx.
    apply in_map_iff in Hx. destruct Hx as (o & <- & _).
    apply DashboardFacts.remainingPrincipal_nonneg.
  - apply Qsum_nonneg. apply Forall_forall. intros x Hx.
    apply in_map_iff in Hx. destruct Hx as (o & <- & _).
    apply DashboardFacts.remainingInterest_nonneg.
  - apply Qsum_nonneg. apply Forall_forall. intros x Hx.
    apply in_map_iff in Hx. destruct Hx as (o & <- & _).
    apply delinquent_bounds.
  - apply Qsum_map_le. intros o _. apply delinquent_bounds.
  - apply Qsum_map_le. intros o _. unfold currentDebt.
    pose proof (DashboardFacts.remainingInterest_nonneg receipts o). lra.
Qed.

Lemma paid_cons (f : Recebimento.t -> Q) (r : Recebimento.t)
      (receipts : list Recebimento.t) (op : Operation.t) :
  0 <= f r ->
  reduce_sum f (opReceipts receipts op) <= reduce_sum f (opReceipts (r :: receipts) op).
Proof.
  intro H. rewrite !reduce_sum_Qsum. unfold opReceipts. simpl.
  destruct (Recebimento.operationId r =? id op)%Z; simpl; lra.
Qed.

(** X23. A payment never raises a figure: with one more receipt whose
    principal and interest are not negative, the capital still out, the
    interest to be received, the total to be received and the overdue
    amount are each at most what they were. *)
Theorem stats_receipt_monotone (operations : list Operation.t)
        (receipts : list Recebimento.t) (r : Recebimento.t) :
  0 <= Recebimento.valor_principal_pago r ->
  0 <= Recebimento.valor_juros_pago r ->
  let before := stats operations receipts in
  let after := stats operations (r :: receipts) in
  activeCapital after <= activeCapital before
  /\ interestToReceive after <= interestToReceive before
  /\ totalReceivables after <= totalReceivables before
  /\ delinquencyValue after <= delinquencyValue before.
Proof.
  intros Hp Hj.
  destruct (DashboardFacts.stats_sums operations receipts) as (H1 & H2 & H3 & H4).
  destruct (DashboardFacts.stats_sums operations (r :: receipts)) as (K1 & K2 & K3 & K4).
  simpl in *. rewrite H1, H2, H3, H4, K1, K2, K3, K4.
  assert (Pr : forall o, remainingPrincipal (r :: receipts) o <= remainingPrincipal receipts o).
  { intro o. unfold remainingPrincipal. apply Qmax_0_le.
    pose proof (paid_cons Recebimento.valor_principal_pago r receipts o Hp).
    unfold paidPrincipal. lra. }
  assert (In_ : forall o, remainingInterest (r :: receipts) o <= remainingInterest receipts o).
  { intro o. unfold remainingInterest. apply Qmax_0_le.
    pose proof (paid_cons Recebimento.valor_juros_pago r receipts o Hj).
    unfold paidInterest. lra. }
  split; [|split; [|split]]; apply Qsum_map_le; intros o _.
  - apply Pr.
  - apply In_.
  - unfold currentDebt. pose proof (Pr o). pose proof (In_ o). lra.
  - unfold delinquent, currentDebt. pose proof (Pr o). pose proof (In_ o).
    destruct (OperationStatus_eqb (status o) atrasado); lra.
Qed.

Lemma stats_receipt_monotone_witness :
  activeCapital (stats [op_100_110 aberto] [receipt_150])
  <= activeCapital (stats [op_100_110 aberto] []).
Proof.
  apply (stats_receipt_monotone [op_100_110 aberto] [] receipt_150).
  - vm_compute. discriminate.
  - vm_compute. discriminate.
Defined.

(** X24. [stats] takes [nominalValue - netValue] for the original
    interest.  So when no active operation has a net value below its
    nominal value and no receipt a negative interest, the interest to be
    received is zero and the total to be received is the capital still
    out. *)
Theorem stats_interest_vanishes (operations : list Operation.t)
        (receipts : list Recebimento.t) :
  (forall op, In op operations -> isActive op = true ->
              nominalValue op <= netValue op) ->
  (forall r, In r receipts -> 0 <= Recebimento.valor_juros_pago r) ->
  interestToReceive (stats operations receipts) == 0
  /\ totalReceivables (stats operations receipts)
       == activeCapital (stats operations receipts).
Proof.
  intros Hop Hr.
  destruct (DashboardFacts.stats_sums operations receipts) as (H1 & H2 & H3 & _).
  simpl in *.
  assert (Z0 : forall o, In o (activeOperations operations) ->
                         remainingInterest receipts o == 0).
  { intros o Ho. apply filter_In in Ho. destruct Ho as [Hin Ha].
    unfold remainingInterest, originalInterest.
    assert (0 <= paidInterest receipts o).
    { unfold paidInterest. rewrite reduce_sum_Qsum. apply Qsum_nonneg.
      apply Forall_forall. intros x Hx. apply in_map_iff in Hx.
      destruct Hx as (r & <- & Hin'). apply filter_In in Hin'. apply Hr, Hin'. }
    pose proof (Hop o Hin Ha). apply Q.max_l. lra. }
  rewrite H1, H2, H3. clear H1 H2 H3.
  induction (activeOperations operations) as [|o l IH]; simpl.
  - split; lra.
  - destruct IH as [I1 I2]; [intros x Hx; apply Z0; now right|].
    pose proof (Z0 o (or_introl eq_refl)) as E.
    unfold currentDebt at 1. rewrite I1, I2, E. split; lra.
Qed.

Lemma stats_interest_vanishes_witness :
  interestToReceive (stats [op_100_110 atrasado] [receipt_150]) == 0.
Proof.
  apply (stats_interest_vanishes [op_100_110 atrasado] [receipt_150]).
  - intros op [<-|[]] _. vm_compute. discriminate.
  - intros r [<-|[]]. vm_compute. discriminate.
Defined.

(** Number of operations in a status. *)
Lemma countStatus_fold (l : list Operation.t) (acc : OperationStatus -> option Z)
      (st : OperationStatus) :
  orZero (fold_left countStatus l acc st)
  = (orZero (acc st)
     + Z.of_nat (List.length (filter (fun op => OperationStatus_eqb (status op) st) l)))%Z.
Proof.
  revert acc; induction l as [|op l IH]; intro acc; simpl.
  - lia.
  - rewrite IH. unfold countStatus.
    destruct (status op), st; simpl; lia.
Qed.

Lemma status_partition (l : list Operation.t) :
  (List.length (filter (fun op => OperationStatus_eqb (status op) aberto) l)
   + List.length (filter (fun op => OperationStatus_eqb (status op) pago) l)
   + List.length (filter (fun op => OperationStatus_eqb (status op) atrasado) l)
   = List.length l)%nat.
Proof.
  induction l as [|op l IH]; simpl; [reflexivity|].
  destruct (status op); simpl; lia.
Qed.

(** X25. The pie of statuses accounts for every operation once: its
    three slices are the numbers of operations [aberto], [pago] and
    [atrasado], in that order, and they add up to the number of
    operations. *)
Theorem operationStatusData_counts (operations : list Operation.t) :
  map value (operationStatusData operations)
  = map (fun st => Z.of_nat (List.length
                               (filter (fun op => OperationStatus_eqb (status op) st)
                                       operations)))
        [aberto; pago; atrasado]
  /\ fold_right Z.add 0%Z (map value (operationStatusData operations))
     = Z.of_nat (List.length operations).
Proof.
  assert (E : map value (operationStatusData operations)
              = map (fun st => Z.of_nat (List.length
                                           (filter (fun op => OperationStatus_eqb (status op) st)
                                                   operations)))
                    [aberto; pago; atrasado]).
  { unfold operationStatusData. simpl. rewrite !countStatus_fold. reflexivity. }
  split; [exact E|].
  rewrite E. simpl. pose proof (status_partition operations). lia.
Qed.



Lemma firstn_skipn_sorted {A} (R : A -> A -> Prop) (n : nat) (l : list A) :
  StronglySorted R l ->
  Forall (fun a => Forall (R a) (skipn n l)) (firstn n l).
Proof.
  revert n; induction l as [|x l IH]; intros n Hs.
  - destruct n; constructor.
  - destruct n as [|n]; simpl; [constructor|].
    inversion Hs as [|? ? Hl Hx]; subst. constructor.
    + apply Forall_forall. intros b Hb. rewrite Forall_forall in Hx.
      apply Hx. rewrite <- (firstn_skipn n l). apply in_or_app. now right.
    + now apply IH.
Qed.

Section DueRemindersFacts.
Variable isThisWeek : Date -> Date -> bool.

Lemma byDueDate_sorted (operations : list Operation.t) :
  StronglySorted (fun a b => (dueDateObj a <= dueDateObj b)%Z) (byDueDate operations).
Proof.
  apply sort_sorted; unfold DateFns.getTime; intros; lia.
Qed.

Lemma byDueDate_In (operations : list Operation.t) (w : WithDue) :
  In w (byDueDate operations)
  <-> exists op, In op operations /\ isActive op = true
                 /\ w = mkWithDue op (DateFns.parseISO (dueDate op)).
Proof.
  unfold byDueDate. split.
  - intro H. apply (Permutation_in _ (sort_perm _ _)) in H.
    apply in_map_iff in H. destruct H as (op & <- & Hop).
    apply filter_In in Hop. exists op. tauto.
  - intros (op & Hin & Ha & ->).
    apply (Permutation_in _ (Permutation_sym (sort_perm _ _))).
    apply in_map_iff. exists op. split; [reflexivity|].
    apply filter_In. tauto.
Qed.

(** X27. The due-date list of the dashboard shows at most five
    entries, each an active operation of the input, in ascending order
    of due date, and they are the earliest: nothing left out falls due
    before an entry shown.  An entry is [overdue] exactly when it fell
    due before today and [today] exactly when it falls due today, and
    its [daysDiff] is the number of days from today to its due date. *)
Theorem dueReminders_earliest_five (now : Date) (operations : list Operation.t) :
  let shown := dueReminders isThisWeek now operations in
  (List.length shown <= 5)%nat
  /\ StronglySorted (fun a b => (dueDate (due_op (reminder_op a))
                                 <= dueDate (due_op (reminder_op b)))%Z) shown
  /\ Forall (fun a =>
               In (due_op (reminder_op a)) operations
               /\ isActive (due_op (reminder_op a)) = true
               /\ daysDiff a = (dueDate (due_op (reminder_op a)) - DateFns.dayOf now)%Z
               /\ (category a = cat_overdue
                   <-> (dueDate (due_op (reminder_op a)) < DateFns.dayOf now)%Z)
               /\ (category a = cat_today
                   <-> dueDate (due_op (reminder_op a)) = DateFns.dayOf now))
            shown
  /\ map reminder_op shown = firstn 5 (byDueDate operations)
  /\ Forall (fun a =>
               Forall (fun w => (dueDate (due_op (reminder_op a)) <= dueDate (due_op w))%Z)
                      (skipn 5 (byDueDate operations)))
            shown.
Proof.
  intro shown.
  assert (E : shown = map (categorize isThisWeek now) (firstn 5 (byDueDate operations))).
  { subst shown. unfold dueReminders, byDueDate. apply firstn_map. }
  assert (Hdue : forall w, In w (byDueDate operations) ->
                           dueDateObj w = DateFns.parseISO (dueDate (due_op w))).
  { intros w Hw. apply byDueDate_In in Hw. destruct Hw as (op & _ & _ & ->). reflexivity. }
  assert (Hle : forall a b, In a (byDueDate operations) -> In b (byDueDate operations) ->
                            (dueDateObj a <= dueDateObj b)%Z ->
                            (dueDate (due_op a) <= dueDate (due_op b))%Z).
  { intros a b Ha Hb. rewrite (Hdue a Ha), (Hdue b Hb). unfold DateFns.parseISO.
    pose proof DateFacts.msPerDay_pos. nia. }
  pose proof (byDueDate_sorted operations) as Hs.
  pose proof (firstn_skipn 5 (byDueDate operations)) as Hsplit.
  assert (Hin1 : forall w, In w (firstn 5 (byDueDate operations)) ->
                           In w (byDueDate operations))
    by (intros w Hw; rewrite <- Hsplit; apply in_or_app; now left).
  assert (Hin2 : forall w, In w (skipn 5 (byDueDate operations)) ->
                           In w (byDueDate operations))
    by (intros w Hw; rewrite <- Hsplit; apply in_or_app; now right).
  split; [|split; [|split; [|split]]].
  - rewrite E, length_map. apply firstn_le_length.
  - rewrite E.
    assert (Hs5 : StronglySorted (fun a b => (dueDateObj a <= dueDateObj b)%Z)
                                 (firstn 5 (byDueDate operations))).
    { rewrite <- Hsplit in Hs.
      clear - Hs. revert Hs. generalize (skipn 5 (byDueDate operations)).
      induction (firstn 5 (byDueDate operations)) as [|x l IH]; intros r Hs.
      - constructor.
      - simpl in Hs. inversion Hs as [|? ? Hl Hx]; subst. constructor.
        + eapply IH; eassumption.
        + apply Forall_app in Hx. tauto. }
    revert Hs5 Hin1. generalize (firstn 5 (byDueDate operations)).
    induction 1 as [|x l Hl IH Hx]; intro Hin; simpl; constructor.
    + apply IH. intros w Hw. apply Hin. now right.
    + apply Forall_forall. intros b Hb. apply in_map_iff in Hb.
      destruct Hb as (w & <- & Hw). simpl.
      rewrite Forall_forall in Hx.
      apply Hle; [apply Hin; now left|apply Hin; now right|now apply Hx].
  - rewrite E. apply Forall_forall. intros a Ha. apply in_map_iff in Ha.
    destruct Ha as (w & <- & Hw). apply Hin1 in Hw.
    pose proof (Hdue w Hw) as Ew.
    apply byDueDate_In in Hw. destruct Hw as (op & Hop & Hact & ->).
    simpl. split; [exact Hop|split; [exact Hact|split; [|split]]].
    + apply DateFacts.differenceInDays_today.
    + pose proof (DateFacts.past_not_today now (dueDate op)) as P.
      destruct (DateFns.isPast now (DateFns.parseISO (dueDate op))
                && negb (DateFns.isToday now (DateFns.parseISO (dueDate op)))) eqn:B.
      * split; [intros _; now apply P|reflexivity].
      * split.
        -- destruct (DateFns.isToday _ _); [intro Hd; inversion Hd|].
           destruct (isThisWeek _ _ && _); intro Hd; inversion Hd.
        -- intro H. apply P in H. discriminate.
    + pose proof (DateFacts.past_not_today now (dueDate op)) as P.
      assert (T : DateFns.isToday now (DateFns.parseISO (dueDate op)) = true
                  <-> dueDate op = DateFns.dayOf now).
      { unfold DateFns.isToday. rewrite DateFacts.startOfDay_parseISO.
        unfold DateFns.startOfDay, DateFns.parseISO. fold (DateFns.dayOf now).
        rewrite Z.eqb_eq. pose proof DateFacts.msPerDay_pos. split; [nia|].
        intros ->. reflexivity. }
      destruct (DateFns.isPast now (DateFns.parseISO (dueDate op))
                && negb (DateFns.isToday now (DateFns.parseISO (dueDate op)))) eqn:B.
      * split; [intro Hd; inversion Hd|]. intro H.
        assert (dueDate op < DateFns.dayOf now)%Z by (now apply P). lia.
      * destruct (DateFns.isToday now (DateFns.parseISO (dueDate op))) eqn:T'.
        -- split; [intros _; now apply T|reflexivity].
        -- split.
           ++ destruct (isThisWeek _ _ && _); intro Hd; inversion Hd.
           ++ intro H. apply T in H. discriminate.
  - rewrite E, map_map. simpl. apply map_id.
  - rewrite E. apply Forall_forall. intros a Ha. apply in_map_iff in Ha.
    destruct Ha as (w & <- & Hw). simpl.
    pose proof (firstn_skipn_sorted _ 5 _ Hs) as F.
    rewrite Forall_forall in F. specialize (F w Hw).
    apply Forall_forall. intros b Hb. rewrite Forall_forall in F.
    apply Hle; [now apply Hin1|now apply Hin2|now apply F].
Qed.
End DueRemindersFacts.

Lemma dueReminders_earliest_five_witness :
  Forall (fun a => category a = cat_overdue)
         (dueReminders (fun _ _ => false) clock_day_100 [op_500 aberto]).
Proof.
  destruct (dueReminders_earliest_five (fun _ _ => false) clock_day_100 [op_500 aberto])
    as (_ & _ & H & _).
  eapply Forall_impl; [|exact H].
  intros a (Hin & _ & _ & Ho & _). apply Ho.
  destruct Hin as [<-|[]]. vm_compute. reflexivity.
Defined.
End DashboardRestFacts.

(** ** The operations page *)

Module OperationsPageFacts.
Import Supabase App AppSpec RestSpec OperationsPage.

(** X28. From the page an operation is never marked paid without the
    confirmation step: a request for [pago] leaves the state of the
    application as it is and sends nothing.  A request for the status
    the operation already has, or for an operation that is not there,
    changes nothing at all.  Confirming always clears the pending
    request, and shows the notification of success before the store has
    answered. *)
Theorem status_change_needs_confirmation (db : Supabase.t) (ps : PageState)
        (operationId : Z) (status : OperationStatus) :
  snd (handleStatusChangeRequest db operationId pago ps) = snd ps
  /\ (forall operation,
        find (fun op => (Operation.id op =? operationId)%Z) (operations (snd ps))
          = Some operation ->
        Operation.status operation = status ->
        handleStatusChangeRequest db operationId status ps = ps)
  /\ ((forall op, In op (operations (snd ps)) -> Operation.id op <> operationId) ->
      handleStatusChangeRequest db operationId status ps = ps)
  /\ (forall operation,
        find (fun op => (Operation.id op =? operationId)%Z) (operations (snd ps))
          = Some operation ->
        Operation.status operation <> pago ->
        fst (handleStatusChangeRequest db operationId pago ps) = Some (operationId, pago))
  /\ fst (handleConfirmStatusUpdate db ps) = None
  /\ (fst ps = Some (operationId, status) ->
      In ("Status da operação atualizado."%string, info)
         (notifications (snd (handleConfirmStatusUpdate db ps)))).
Proof.
  destruct ps as [pending s]. simpl.
  split; [|split; [|split; [|split; [|split]]]].
  - unfold handleStatusChangeRequest.
    destruct (find _ (operations s)) as [operation|]; [|reflexivity].
    destruct (OperationStatus_eqb (Operation.status operation) pago); reflexivity.
  - intros operation Hf Hs. unfold handleStatusChangeRequest. rewrite Hf.
    replace (OperationStatus_eqb (Operation.status operation) status) with true
      by (symmetry; now apply OperationStatus_eqb_eq).
    reflexivity.
  - intro Hno. unfold handleStatusChangeRequest.
    replace (find _ (operations s)) with (@None Operation.t); [reflexivity|].
    symmetry. apply AppFacts.find_none_iff. intros op Hop.
    apply Z.eqb_neq. now apply Hno.
  - intros operation Hf Hs. unfold handleStatusChangeRequest. rewrite Hf.
    destruct (OperationStatus_eqb (Operation.status operation) pago) eqn:E.
    + apply OperationStatus_eqb_eq in E. contradiction.
    + reflexivity.
  - unfold handleConfirmStatusUpdate. destruct pending as [[i st]|]; reflexivity.
  - intros ->. unfold handleConfirmStatusUpdate, handleUpdateOperationStatus,
      tryCatch, bind, request, orThrow, ret, throw, setOperations, addNotification.
    simpl. destruct (operations_update db _ _); simpl;
      rewrite ?in_app_iff; simpl; auto.
Qed.

Lemma status_change_needs_confirmation_witness :
  handleStatusChangeRequest db_ok 1 aberto (None, state_of [op_500 aberto] [])
  = (None, state_of [op_500 aberto] []).
Proof.
  destruct (status_change_needs_confirmation
              db_ok (None, state_of [op_500 aberto] []) 1 aberto)
    as (_ & H & _).
  apply (H (op_500 aberto)); reflexivity.
Defined.

(** X30. The net value the form previews is the net value that is
    stored: for a rate that is not negative, the preview equals the
    [net_value] of the title [handleAddOperation] inserts for the same
    amount and rate. *)
Theorem preview_is_stored_net_value (nominalValue : string) (opData : NewOperation.t) :
  NewOperation.nominalValue opData = Utils.parseCurrencyInput nominalValue ->
  0 <= NewOperation.taxa opData ->
  netValueEffect nominalValue (NewOperation.taxa opData)
  == OperationPayload.net_value (singlePayload opData).
Proof.
  intros Hn Ht. unfold netValueEffect, singlePayload, taxaDecimal. simpl.
  rewrite Hn.
  pose proof (UtilsFacts.parseCurrencyInput_nonneg nominalValue) as Hpos.
  set (n := Utils.parseCurrencyInput nominalValue) in *.
  destruct (Qlt_bool 0 n) eqn:En; simpl.
  - destruct (Qlt_bool 0 (NewOperation.taxa opData)) eqn:Et.
    + reflexivity.
    + assert (E : NewOperation.taxa opData == 0).
      { destruct (Qlt_le_dec 0 (NewOperation.taxa opData)) as [H|H].
        - apply AppFacts.Qlt_bool_iff in H. congruence.
        - lra. }
      rewrite E. field.
  - assert (E : n == 0).
    { destruct (Qlt_le_dec 0 n) as [H|H].
      - apply AppFacts.Qlt_bool_iff in H. congruence.
      - lra. }
    rewrite E. field.
Qed.

Lemma preview_is_stored_net_value_witness :
  netValueEffect "R$ 1.000,00" 5
  == OperationPayload.net_value
       (singlePayload (NewOperation.mk 7 cheque "C-9" (Utils.parseCurrencyInput "R$ 1.000,00")
                                       60 90 5 EmptyString (Some 1%Z))).
Proof.
  apply (preview_is_stored_net_value
           "R$ 1.000,00"
           (NewOperation.mk 7 cheque "C-9" (Utils.parseCurrencyInput "R$ 1.000,00")
                            60 90 5 EmptyString (Some 1%Z))).
  - reflexivity.
  - vm_compute. discriminate.
Defined.

End OperationsPageFacts.
